(** * Event based risk calculator and hazard restore tool of the OpenQuake engine

    A shallow embedding of
    - [openquake/engine/calculators/risk/event_based/core.py]
      ([do_event_based], [disaggregate], [EventBasedRiskCalculator]) and
    - [openquake/engine/tools/restore_hazards.py]
      ([safe_restore], [hazard_restore]).

    Conventions of the embedding.
    - Python floats are idealised as exact rationals ([Qc], canonical
      fractions with Leibniz equality); rounding of IEEE arithmetic is not
      modelled there.  Where rounding decides a property, the merge of the
      event loss tables is also given on binary64 floats ([FloatCounter]).
    - Rupture ids, database ids and bin numbers are integers ([Z]).
    - A Python [dict]/[Counter] keyed by rupture id is a [gmap Z Qc]; the
      per loss type tables are a [gmap string (gmap Z Qc)].
    - A Python exception is a value of [exn]; a function that may raise
      returns a [result]. *)

From Stdlib Require Import QArith Qcanon Qround Lqa ZArith String DecimalString.
From Stdlib Require DecimalPos DecimalZ.
From Stdlib Require Import Floats.
From stdpp Require Import numbers gmap strings fin_maps list.

#[local] Set Warnings "-clear-no-such-hyp".

Local Open Scope Qc_scope.

(** ** Exceptions and fallible computations *)

(** The exceptions the modelled code can raise.  [NumericError] stands for
    what a division by a zero bin width ends in: [ZeroDivisionError] for
    Python floats, or, for numpy scalars (which divide to inf or nan), the
    error of formatting the quotient with [%d]. *)
Inductive exn : Set :=
  | NumericError
  | ValueError
  | KeyError
  | DoesNotExist
  | DatabaseError
  | ValidationError.

Inductive result (A : Type) : Type :=
  | Ok (a : A)
  | Raise (e : exn).
Arguments Ok {A} a.
Arguments Raise {A} e.

Global Instance exn_eq_dec : EqDecision exn.
Proof. solve_decision. Defined.

Global Instance result_eq_dec {A} `{EqDecision A} : EqDecision (result A).
Proof. solve_decision. Defined.

Definition rbind {A B} (m : result A) (f : A -> result B) : result B :=
  match m with
  | Ok a => f a
  | Raise e => Raise e
  end.

Definition rmap {A B} (f : A -> B) (m : result A) : result B :=
  match m with
  | Ok a => Ok (f a)
  | Raise e => Raise e
  end.

Notation "f <$$> m" := (rmap f m) (at level 61, left associativity).

Notation "'let!' x ':=' m 'in' k" := (rbind m (fun x => k))
  (at level 10, x name, m at level 100, k at level 200).

(** ** [collections.Counter] restricted to what the calculator uses *)

Module Counter.

(** [Counter.__missing__]: a key that is absent reads as zero. *)
Definition get (c : gmap Z Qc) (elem : Z) : Qc := default 0 (c !! elem).

(** [if newcount > 0: result[elem] = newcount] *)
Definition keep_positive (newcount : Qc) : option Qc :=
  if decide (0 < newcount) then Some newcount else None.

(** One key of [Counter.__add__]: the first loop runs over the keys of
    [self] and adds [other[elem]] (zero when missing); the second loop
    adds the keys of [other] that are not in [self]. *)
Definition add_entry (mself mother : option Qc) : option Qc :=
  match mself, mother with
  | Some count, _ => keep_positive (count + default 0 mother)
  | None, Some count => keep_positive count
  | None, None => None
  end.

(** [self + other], which is also what [self += other] evaluates. *)
Definition add (self other : gmap Z Qc) : gmap Z Qc :=
  merge add_entry self other.

Definition nonneg (c : gmap Z Qc) : Prop := map_Forall (fun _ x => 0 <= x) c.
Definition positive (c : gmap Z Qc) : Prop := map_Forall (fun _ x => 0 < x) c.

End Counter.

(** ** The event loss tables of [EventBasedRiskCalculator] *)

(** [self.event_loss_tables = collections.defaultdict(collections.Counter)]:
    a loss type that was never written reads as the empty counter. *)
Definition event_loss_table (self : gmap string (gmap Z Qc)) (loss_type : string)
  : gmap Z Qc :=
  default ∅ (self !! loss_type).

(** Body of the loop of [task_completed]:
    [task_loss_table = event_loss_tables[loss_type]] raises [KeyError] when the
    task returned no table for the loss type. *)
Definition task_completed_step (event_loss_tables : gmap string (gmap Z Qc))
    (loss_type : string) (self : gmap string (gmap Z Qc))
  : result (gmap string (gmap Z Qc)) :=
  match event_loss_tables !! loss_type with
  | None => Raise KeyError
  | Some task_loss_table =>
      Ok (<[loss_type := Counter.add (event_loss_table self loss_type) task_loss_table]> self)
  end.

(** [task_completed]; [loss_types] is [models.loss_types(self.risk_models)].
    The progress logging of [log_percent] does not touch the tables. *)
Fixpoint task_completed (loss_types : list string)
    (event_loss_tables : gmap string (gmap Z Qc))
    (self : gmap string (gmap Z Qc)) : result (gmap string (gmap Z Qc)) :=
  match loss_types with
  | [] => Ok self
  | loss_type :: rest =>
      let! self' := task_completed_step event_loss_tables loss_type self in
      task_completed rest event_loss_tables self'
  end.

Definition tables_nonneg (tables : gmap string (gmap Z Qc)) : Prop :=
  map_Forall (fun _ c => Counter.nonneg c) tables.
Definition tables_positive (tables : gmap string (gmap Z Qc)) : Prop :=
  map_Forall (fun _ c => Counter.positive c) tables.


(** ** Numbers and [%d] formatting *)

(** Float division; a zero divisor raises. *)
Definition py_div (a b : Qc) : result Qc :=
  if decide (b = 0) then Raise NumericError else Ok (a / b).

Definition numpy_floor (v : Qc) : Qc := Qc_of_Z (Qfloor v).

(** [int(v)] on a float: truncation toward zero. *)
Definition py_int (v : Qc) : Z := Z.quot (Qnum v) (Z.pos (Qden v)).

(** ["%d" % v]: the decimal digits of [int(v)]. *)
Definition format_d (v : Qc) : string :=
  NilZero.string_of_int (Z.to_int (py_int v)).

(** ["%d,%d" % (a, b)] *)
Definition format_d_d (a b : Qc) : string :=
  format_d a +:+ "," +:+ format_d b.

(** ** Disaggregation *)

Record Site := { site_x : Qc; site_y : Qc }.

Global Instance Site_eq_dec : EqDecision Site.
Proof. solve_decision. Defined.

Record Point := { longitude : Qc; latitude : Qc }.

(** A rupture surface, seen through the two hazardlib methods the calculator
    calls on the one-point mesh built from a site:
    [get_joyner_boore_distance(m)[0]] and the first of
    [get_closest_points(m)]. *)
Record Surface := {
  get_joyner_boore_distance : Site -> Qc;
  get_closest_points : Site -> Point
}.

Record SESRupture := { magnitude : Qc; surface : Surface }.

Record Asset := { asset_ref : Z; asset_site : Site }.

Global Instance Asset_eq_dec : EqDecision Asset.
Proof. solve_decision. Defined.

Record CalcParams := {
  conditional_loss_poes : list Qc;
  quantiles : list Qc;
  sites_disagg : list Site;
  mag_bin_width : Qc;
  distance_bin_width : Qc;
  coordinate_bin_width : Qc
}.

(** The part of [ProbabilisticEventBased.Output] that this module reads. *)
Record Output := {
  assets : list Asset;
  loss_matrix : list (list Qc);
  output_event_loss_table : gmap Z Qc;
  insured_curves : bool
}.

(** A row of the disaggregation matrix:
    (magnitude-distance key, coordinate key, fraction). *)
Definition disagg_row : Type := string * string * Qc.

(** [mapM] for [result]: runs [f] over the list, stops at the first raise. *)
Fixpoint result_mapM {A B} (f : A -> result B) (l : list A) : result (list B) :=
  match l with
  | [] => Ok []
  | a :: rest =>
      let! b := f a in
      let! bs := result_mapM f rest in
      Ok (b :: bs)
  end.

(** [models.SESRupture.objects.get(pk=rupture_id)] *)
Definition SESRupture_get (ruptures : gmap Z SESRupture) (rupture_id : Z)
  : result SESRupture :=
  match ruptures !! rupture_id with
  | Some rupture => Ok rupture
  | None => Raise DoesNotExist
  end.

(** Body of the loop of [disaggregate_site], for one
    [(fraction, rupture_id)] of [zip(loss_ratios, rupture_ids)]. *)
Definition disaggregate_rupture (ruptures : gmap Z SESRupture) (params : CalcParams)
    (site : Site) (pair : Qc * Z) : result disagg_row :=
  let '(fraction, rupture_id) := pair in
  let! rupture := SESRupture_get ruptures rupture_id in
  let s := surface rupture in
  let! mag_ratio := py_div (magnitude rupture) (mag_bin_width params) in
  let mag := numpy_floor mag_ratio in
  let! dist := py_div (numpy_floor (get_joyner_boore_distance s site))
                      (distance_bin_width params) in
  let closest_point := get_closest_points s site in
  let! lon := py_div (longitude closest_point) (coordinate_bin_width params) in
  let! lat := py_div (latitude closest_point) (coordinate_bin_width params) in
  Ok (format_d_d mag dist, format_d_d lon lat, fraction).

(** [list(disaggregate_site(site, loss_ratios))]: the generator is consumed
    at once by its only caller. *)
Definition disaggregate_site (ruptures : gmap Z SESRupture) (params : CalcParams)
    (rupture_ids : list Z) (site : Site) (loss_ratios : list Qc)
  : result (list disagg_row) :=
  result_mapM (disaggregate_rupture ruptures params site) (zip loss_ratios rupture_ids).

(** [assets_disagg] starts as the list [[]] and is rebound to an
    [itertools.chain] object for every qualifying asset.  The two differ in
    truth value: an empty list is false, an iterator is always true. *)
Inductive assets_iterable :=
  | PyList (items : list Asset)
  | Chain (items : list Asset).

Definition iter_items (it : assets_iterable) : list Asset :=
  match it with PyList items | Chain items => items end.

Definition truthy (it : assets_iterable) : bool :=
  match it with
  | PyList [] => false
  | PyList (_ :: _) => true
  | Chain _ => true
  end.

Record DisaggregationOutputs := {
  assets_disagg : assets_iterable;
  magnitude_distance : list string;
  coordinate : list string;
  fractions : list Qc
}.

(** The loop of [disaggregate] over [zip(outputs.assets, outputs.loss_matrix)]. *)
Fixpoint disaggregate_loop (ruptures : gmap Z SESRupture) (params : CalcParams)
    (rupture_ids : list Z) (pairs : list (Asset * list Qc))
    (assets_disagg : assets_iterable) (disagg_matrix : list disagg_row)
  : result (assets_iterable * list disagg_row) :=
  match pairs with
  | [] => Ok (assets_disagg, disagg_matrix)
  | (asset, losses) :: rest =>
      if decide (asset_site asset ∈ sites_disagg params) then
        let! rows := disaggregate_site ruptures params rupture_ids
                                       (asset_site asset) losses in
        disaggregate_loop ruptures params rupture_ids rest
          (Chain (iter_items assets_disagg ++ replicate (length rupture_ids) asset))
          (disagg_matrix ++ rows)
      else
        disaggregate_loop ruptures params rupture_ids rest assets_disagg disagg_matrix
  end.

(** [magnitudes, coordinates, fractions] are unpacked from the transposed
    [disagg_matrix]; the transposition of no rows is the empty list, which
    cannot be unpacked into three names. *)
Definition unzip_rows (disagg_matrix : list disagg_row)
  : result (list string * list string * list Qc) :=
  match disagg_matrix with
  | [] => Raise ValueError
  | _ => Ok (disagg_matrix.*1.*1, disagg_matrix.*1.*2, disagg_matrix.*2)
  end.

Definition disaggregate (ruptures : gmap Z SESRupture) (outputs : Output)
    (rupture_ids : list Z) (params : CalcParams) : result DisaggregationOutputs :=
  let! loop_result :=
    disaggregate_loop ruptures params rupture_ids
      (zip (assets outputs) (loss_matrix outputs)) (PyList []) [] in
  let '(assets_disagg, disagg_matrix) := loop_result in
  if truthy assets_disagg then
    let! columns := unzip_rows disagg_matrix in
    let '(magnitudes, coordinates, fractions) := columns in
    Ok {| assets_disagg := assets_disagg; magnitude_distance := magnitudes;
          coordinate := coordinates; fractions := fractions |}
  else
    Ok {| assets_disagg := assets_disagg; magnitude_distance := [];
          coordinate := []; fractions := [] |}.

(** ** The task body: [do_event_based] *)

(** An element of the [outputs] a calculation unit returns:
    [out.hid] and [out.output]. *)
Record UnitOutput := { hid : Z; output : Output }.

(** The part of [StatisticalOutput] that this module reads. *)
Record StatisticalOutput := {
  stats_assets : list Asset;
  stats_event_loss_table : gmap Z Qc;
  mean_insured_curves : bool
}.

(** What a task does to the outside: log records and calls of the output
    containers.  Curve and map data of risklib are handed over unread, so a
    call records its container arguments, its assets and, for loss
    fractions, the keys and fractions written. *)
Inductive effect :=
  | LogInfo (msg : string)
  | Write (hazard_output_id : option Z) (output_type : string)
          (qualifier : string) (written_assets : list Asset)
          (keys : list string) (values : list Qc)
  | WriteAll (hazard_output_id : option Z) (output_type : string)
             (qualifier : string) (tag_values : list Qc)
             (written_assets : list Asset).

Global Instance effect_eq_dec : EqDecision effect.
Proof. solve_decision. Defined.

Definition save_individual_outputs (hazard_output_id : option Z) (outputs : Output)
    (disagg_outputs : option DisaggregationOutputs) (params : CalcParams)
  : list effect :=
  [Write hazard_output_id "event_loss_curve" "" (assets outputs) [] [];
   WriteAll hazard_output_id "loss_map" "poe" (conditional_loss_poes params)
            (assets outputs)]
  ++ match disagg_outputs with
     | Some d =>
         let assets := iter_items (assets_disagg d) in
         [Write hazard_output_id "loss_fraction" "magnitude_distance" assets
                (magnitude_distance d) (fractions d);
          Write hazard_output_id "loss_fraction" "coordinate" assets
                (coordinate d) (fractions d)]
     | None => []
     end
  ++ (if insured_curves outputs
      then [Write hazard_output_id "event_loss_curve" "insured" (assets outputs) [] []]
      else []).

Definition save_statistical_output (stats : StatisticalOutput) (params : CalcParams)
  : list effect :=
  [Write None "loss_curve" "mean" (stats_assets stats) [] [];
   WriteAll None "loss_map" "mean" (conditional_loss_poes params) (stats_assets stats);
   WriteAll None "loss_curve" "quantile" (quantiles params) (stats_assets stats)]
  ++ map (fun quantile => WriteAll None "loss_map" "quantile"
                            (conditional_loss_poes params) (stats_assets stats))
         (quantiles params)
  ++ (if mean_insured_curves stats
      then [Write None "loss_curve" "mean insured" (stats_assets stats) [] [];
            WriteAll None "loss_curve" "quantile insured" (quantiles params)
                     (stats_assets stats)]
      else []).

(** [dict.keys()] of the event loss table of an output. *)
Definition keys (table : gmap Z Qc) : list Z := (map_to_list table).*1.

(** The [for out in outputs] loop of [do_event_based]. *)
Fixpoint save_outputs (ruptures : gmap Z SESRupture) (params : CalcParams)
    (outputs : list UnitOutput) : list effect * result unit :=
  match outputs with
  | [] => ([], Ok ())
  | out :: rest =>
      let disagg : result (option DisaggregationOutputs) :=
        match sites_disagg params with
        | _ :: _ =>
            let rupture_ids := keys (output_event_loss_table (output out)) in
            let! d := disaggregate ruptures (output out) rupture_ids params in
            Ok (Some d)
        | [] => Ok None
        end in
      match disagg with
      | Raise e => ([], Raise e)
      | Ok disagg_outputs =>
          let saved := save_individual_outputs (Some (hid out)) (output out)
                                               disagg_outputs params in
          let '(effects, r) := save_outputs ruptures params rest in
          (saved ++ effects, r)
      end
  end.

(** [do_event_based]; [unit_result] is the [(outputs, stats)] that calling
    the calculation unit returned. *)
Definition do_event_based (ruptures : gmap Z SESRupture) (params : CalcParams)
    (unit_result : list UnitOutput * option StatisticalOutput)
  : list effect * result (gmap Z Qc) :=
  let '(outputs, stats) := unit_result in
  match outputs with
  | [] => ([LogInfo "Exit from task as no asset could be processed"], Ok ∅)
  | first :: _ =>
      match save_outputs ruptures params outputs with
      | (effects, Raise e) => (effects, Raise e)
      | (effects, Ok _) =>
          match stats with
          | Some stats =>
              (effects ++ save_statistical_output stats params,
               Ok (stats_event_loss_table stats))
          | None => (effects, Ok (output_event_loss_table (output first)))
          end
      end
  end.

(** ** Post processing: event loss tables and aggregate loss curves *)

Record HazardOutput := { hazard_output_id : Z; lt_realization : Z }.

Global Instance HazardOutput_eq_dec : EqDecision HazardOutput.
Proof. solve_decision. Defined.

(** [self.rc] *)
Record RiskCalculation := {
  rc_investigation_time : Qc;
  loss_curve_resolution : Z;
  hazard_outputs : list HazardOutput
}.

(** [self.hc] *)
Record HazardCalculation := {
  ses_per_logic_tree_path : Z;
  hc_investigation_time : Qc
}.

(** What post processing calls outside this repository: the curve builder
    and the average loss of risklib's [scientific] module, [numpy.std]
    (with its default [ddof=0], the population standard deviation), and the
    query for the ids of the ruptures of a logic tree realization. *)
Class Scientific := {
  scientific_event_based :
    list Qc -> forall (tses time_span : Qc) (curve_resolution : Z),
    result (list Qc * list Qc);
  scientific_average_loss : list Qc -> list Qc -> Qc;
  numpy_std : list Qc -> Qc;
  ses_rupture_ids : Z -> list Z
}.

(** The rows post processing creates; the [Output] and [LossCurve]
    containers created along with a row are not told apart from it. *)
Inductive db_row :=
  | EventLoss (loss_type : string) (hazard_output : HazardOutput)
  | EventLossData (loss_type : string) (hazard_output : HazardOutput)
                  (rupture_id : Z) (aggregate_loss : Qc)
  | AggregateLossCurveData (loss_type : string) (hazard_output : HazardOutput)
                           (losses poes : list Qc) (average_loss stddev_loss : Qc).

Definition hazard_times (rc : RiskCalculation) (hc : HazardCalculation) : Qc * Qc :=
  (rc_investigation_time rc,
   Qc_of_Z (ses_per_logic_tree_path hc) * hc_investigation_time hc).

(** [rupture_id in event_loss_table] *)
Definition recorded (event_loss_table : gmap Z Qc) (rupture_id : Z) : Prop :=
  is_Some (event_loss_table !! rupture_id).

Global Instance recorded_dec event_loss_table rupture_id :
  Decision (recorded event_loss_table rupture_id).
Proof. unfold recorded. apply _. Defined.

(** The list comprehension of [post_process]: [event_loss_table[rupture_id]]
    for the [rupture_id] of [rupture_ids] that are in [event_loss_table]. *)
Definition aggregate_losses_of (event_loss_table : gmap Z Qc) (rupture_ids : list Z)
  : list Qc :=
  map (Counter.get event_loss_table) (filter (recorded event_loss_table) rupture_ids).

(** The body of the two nested loops of [post_process], for one loss type
    and one hazard output. *)
Definition post_process_one `{Scientific} (rc : RiskCalculation) (hc : HazardCalculation)
    (loss_type : string) (event_loss_table : gmap Z Qc)
    (hazard_output : HazardOutput) : result (list db_row) :=
  let '(time_span, tses) := hazard_times rc hc in
  let rupture_ids := ses_rupture_ids (lt_realization hazard_output) in
  let inserted :=
    map (fun rupture_id =>
           EventLossData loss_type hazard_output rupture_id
                         (Counter.get event_loss_table rupture_id))
        (filter (recorded event_loss_table) rupture_ids) in
  let aggregate_losses := aggregate_losses_of event_loss_table rupture_ids in
  match aggregate_losses with
  | _ :: _ =>
      let! curve := scientific_event_based aggregate_losses tses time_span
                                           (loss_curve_resolution rc) in
      let '(aggregate_loss_losses, aggregate_loss_poes) := curve in
      Ok (EventLoss loss_type hazard_output :: inserted ++
          [AggregateLossCurveData loss_type hazard_output
             aggregate_loss_losses aggregate_loss_poes
             (scientific_average_loss aggregate_loss_losses aggregate_loss_poes)
             (numpy_std aggregate_losses)])
  | [] => Ok (EventLoss loss_type hazard_output :: inserted)
  end.

(** [post_process]: every loss type of [self.event_loss_tables.items()]
    with every hazard output. *)
Definition post_process `{Scientific} (rc : RiskCalculation) (hc : HazardCalculation)
    (self : gmap string (gmap Z Qc)) : result (list db_row) :=
  mjoin <$$> result_mapM
    (fun item : string * gmap Z Qc =>
       mjoin <$$> result_mapM (post_process_one rc hc item.1 item.2)
                               (hazard_outputs rc))
    (map_to_list self).

(** ** Validation of the bin widths *)

(** Modelled from the spec: the validation of the job configuration, which
    in the repository is the work of the [validation] module and of
    [base.RiskCalculator.validators]; neither is among the sources embedded
    here, and the two validators that [EventBasedRiskCalculator.validators]
    adds by name ([RequireEventBasedHazard], [ExposureHasInsuranceBounds])
    do not concern bin widths.  The spec asks that a malformed
    configuration, a bin width of zero for one, fails before any task
    executes. *)
Definition validate_bin_widths (params : CalcParams) : result unit :=
  if decide (mag_bin_width params = 0 \/ distance_bin_width params = 0 \/
             coordinate_bin_width params = 0)
  then Raise ValidationError
  else Ok ().

(** Modelled from the spec: the order of a calculation, validation first and
    the tasks (one [do_event_based] per calculation unit) after it. *)
Definition run_calculation (ruptures : gmap Z SESRupture) (params : CalcParams)
    (units : list (list UnitOutput * option StatisticalOutput))
  : result (list (list effect * result (gmap Z Qc))) :=
  rbind (validate_bin_widths params)
        (fun _ => Ok (map (do_event_based ruptures params) units)).

(** ** The hazard restore tool *)

Definition BLOCKSIZE : Z := 1000.

(** What the tool calls on the cursor, over a database state [DB] as the
    open transaction sees it, and Python's [int] on a string.
    - [select_ids tablename db]: [curs.execute('select id from ...')] and
      [curs.fetchall()];
    - [copy_from s tablename db]: [curs.copy_from(s, tablename)] with the
      lines buffered in [s];
    - [int_of_string]: [None] where [int] raises [ValueError]. *)
Class Cursor (DB : Type) := {
  select_ids : string -> DB -> result (list Z);
  copy_from : list string -> string -> DB -> result DB;
  int_of_string : string -> option Z
}.

(** [line.split('\t', 1)[0]] *)
Fixpoint first_field (line : string) : string :=
  match line with
  | EmptyString => EmptyString
  | String c rest =>
      if decide (c = Ascii.ascii_of_nat 9) then EmptyString
      else String c (first_field rest)
  end.

(** The [for i, line in enumerate(gzfile, 1)] loop of [safe_restore], with
    the buffer [s] and the counter [imported] passed along.  It returns the
    database, the buffer as the [finally] clause finds it, and the outcome. *)
Fixpoint restore_lines {DB} `{Cursor DB} (tablename : string) (ids : list Z)
    (gzfile : list string) (i : Z) (s : list string) (imported : Z) (db : DB)
  : DB * list string * result Z :=
  match gzfile with
  | [] => (db, s, Ok imported)
  | line :: rest =>
      match int_of_string (first_field line) with
      | None => (db, s, Raise ValueError)
      | Some id_ =>
          let '(s, imported) :=
            if decide (id_ ∈ ids) then (s, imported)
            else (s ++ [line], (imported + 1)%Z) in
          if decide ((i mod BLOCKSIZE)%Z = 0%Z) then
            match copy_from s tablename db with
            | Raise e => (db, s, Raise e)
            | Ok db => restore_lines tablename ids rest (i + 1)%Z [] imported db
            end
          else restore_lines tablename ids rest (i + 1)%Z s imported db
      end
  end.

(** [safe_restore]: the [finally] clause copies the buffer whether the loop
    raised or not; an exception of its own replaces the one of the loop. *)
Definition safe_restore {DB} `{Cursor DB} (gzfile : list string) (tablename : string)
    (db : DB) : DB * result Z :=
  match select_ids tablename db with
  | Raise e => (db, Raise e)
  | Ok ids =>
      let '(db, s, outcome) := restore_lines tablename ids gzfile 1 [] 0 db in
      match copy_from s tablename db with
      | Raise e => (db, Raise e)
      | Ok db => (db, outcome)
      end
  end.

Definition is_space (c : Ascii.ascii) : bool :=
  bool_decide (c ∈ map Ascii.ascii_of_nat [9; 10; 11; 12; 13; 32]%nat).

(** [line.rstrip()] *)
Fixpoint rstrip (line : string) : string :=
  match line with
  | EmptyString => EmptyString
  | String c rest =>
      match rstrip rest with
      | EmptyString => if is_space c then EmptyString else String c EmptyString
      | stripped => String c stripped
      end
  end.

(** [fname[:-7]], which strips [.csv.gz] *)
Definition strip_csv_gz (fname : string) : string :=
  substring 0 (String.length fname - 7) fname.

(** The psycopg2 connection: the committed database, the database as the
    open transaction sees it, and the transaction calls made so far. *)
Inductive transaction_call := Commit | Rollback.

Global Instance transaction_call_eq_dec : EqDecision transaction_call.
Proof. solve_decision. Defined.

Record Connection (DB : Type) := {
  committed : DB;
  working : DB;
  calls : list transaction_call
}.
Arguments committed {DB} _.
Arguments working {DB} _.
Arguments calls {DB} _.

Definition rollback {DB} (conn : Connection DB) : Connection DB :=
  {| committed := committed conn; working := committed conn;
     calls := calls conn ++ [Rollback] |}.

Definition commit {DB} (conn : Connection DB) : Connection DB :=
  {| committed := working conn; working := working conn;
     calls := calls conn ++ [Commit] |}.

(** The loop of [hazard_restore] over the lines of [FILENAMES.txt].  The
    archive maps a member name to the lines of the (uncompressed) member;
    [tf.extractfile] raises [KeyError] for a name that is not in it. *)
Fixpoint restore_files {DB} `{Cursor DB} (tf : gmap string (list string))
    (filenames : list string) (db : DB) : DB * result unit :=
  match filenames with
  | [] => (db, Ok ())
  | line :: rest =>
      let fname := rstrip line in
      let tname := strip_csv_gz fname in
      match tf !! ("hazard_calculation/" +:+ fname) with
      | None => (db, Raise KeyError)
      | Some f =>
          match safe_restore f tname db with
          | (db, Raise e) => (db, Raise e)
          | (db, Ok imported) => restore_files tf rest db
          end
      end
  end.

(** The body of the [try] of [hazard_restore]. *)
Definition restore_all {DB} `{Cursor DB} (tf : gmap string (list string)) (db : DB)
  : DB * result unit :=
  match tf !! "hazard_calculation/FILENAMES.txt" with
  | None => (db, Raise KeyError)
  | Some filenames => restore_files tf filenames db
  end.

Definition with_working {DB} (conn : Connection DB) (db : DB) : Connection DB :=
  {| committed := committed conn; working := db; calls := calls conn |}.

(** [hazard_restore], from the archive that [tarfile.open] returned, which
    is opened before the [try]:
    [except: conn.rollback(); raise], [else: conn.commit()]. *)
Definition hazard_restore {DB} `{Cursor DB} (conn : Connection DB)
    (tf : gmap string (list string)) : Connection DB * result unit :=
  match restore_all tf (working conn) with
  | (db, Raise e) => (rollback (with_working conn db), Raise e)
  | (db, Ok _) => (commit (with_working conn db), Ok ())
  end.

(** Every asset to disaggregate has a loss ratio for every rupture id. *)
Definition rows_cover_ruptures (params : CalcParams) (rupture_ids : list Z)
    (pairs : list (Asset * list Qc)) : Prop :=
  Forall (fun pair : Asset * list Qc =>
            asset_site pair.1 ∈ sites_disagg params ->
            (length rupture_ids <= length pair.2)%nat) pairs.

(** The keys a partial table adds to a running table of positive entries:
    those of strictly positive loss. *)
Definition added_keys (A : gmap string (gmap Z Qc)) (loss_type : string) : gset Z :=
  dom (filter (fun kv : Z * Qc => 0 < kv.2) (event_loss_table A loss_type)).

(** ** The wording of the spec, for comparison with the code *)

(** A bin number as the spec words it: [floor(value / bin_width)]. *)
Definition spec_bin (value bin_width : Qc) : Z := Qfloor (value / bin_width)%Qc.

Definition format_Z (n : Z) : string := NilZero.string_of_int (Z.to_int n).

(** The two keys the spec asks for a rupture and a site. *)
Definition spec_keys (params : CalcParams) (rupture : SESRupture) (site : Site)
  : string * string :=
  let closest := get_closest_points (surface rupture) site in
  (format_Z (spec_bin (magnitude rupture) (mag_bin_width params)) +:+ "," +:+
   format_Z (spec_bin (get_joyner_boore_distance (surface rupture) site)
                      (distance_bin_width params)),
   format_Z (spec_bin (longitude closest) (coordinate_bin_width params)) +:+ "," +:+
   format_Z (spec_bin (latitude closest) (coordinate_bin_width params))).

(** A loss as a share of the total of its row. *)
Definition share_of_total (losses : list Qc) (loss : Qc) : Qc :=
  loss / foldr Qcplus 0 losses.

(** The rows the disaggregation contract describes, each with its asset:
    an asset whose site is listed gives one row per rupture it is paired
    with, any other asset gives none. *)
Fixpoint rows_with_assets (ruptures : gmap Z SESRupture) (params : CalcParams)
    (rupture_ids : list Z) (pairs : list (Asset * list Qc))
  : result (list (Asset * disagg_row)) :=
  match pairs with
  | [] => Ok []
  | (asset, losses) :: rest =>
      let! here :=
        if decide (asset_site asset ∈ sites_disagg params)
        then map (pair asset) <$$>
               disaggregate_site ruptures params rupture_ids (asset_site asset) losses
        else Ok [] in
      let! there := rows_with_assets ruptures params rupture_ids rest in
      Ok (here ++ there)
  end.

(** ** Concrete inputs *)

Module Examples.

Definition structural : string := "structural".

(** Partial tables for one loss type and one rupture. *)
Definition table_of (loss : Qc) : gmap string (gmap Z Qc) :=
  {[ structural := {[ 1%Z := loss ]} ]}.

Definition site0 : Site := {| site_x := 0; site_y := 0 |}.
Definition site1 : Site := {| site_x := 1; site_y := 0 |}.

(** A rupture of magnitude 6 whose surface is 1.5 km away from any site,
    with closest point at longitude -1.5 and latitude 0.5. *)
Definition surface0 : Surface :=
  {| get_joyner_boore_distance := fun _ => Q2Qc (3 # 2);
     get_closest_points := fun _ =>
       {| longitude := Q2Qc (-3 # 2); latitude := Q2Qc (1 # 2) |} |}.

Definition rupture0 : SESRupture := {| magnitude := Q2Qc 6; surface := surface0 |}.

Definition ruptures0 : gmap Z SESRupture := {[ 7%Z := rupture0; 8%Z := rupture0 ]}.

(** Bin widths 0.5, 0.5 and 1; [site0] is to be disaggregated. *)
Definition params0 : CalcParams :=
  {| conditional_loss_poes := []; quantiles := [];
     sites_disagg := [site0];
     mag_bin_width := Q2Qc (1 # 2);
     distance_bin_width := Q2Qc (1 # 2);
     coordinate_bin_width := 1 |}.

Definition params_zero_width : CalcParams :=
  {| conditional_loss_poes := []; quantiles := [];
     sites_disagg := [site0];
     mag_bin_width := Q2Qc (1 # 2);
     distance_bin_width := 0;
     coordinate_bin_width := 1 |}.

Definition asset0 : Asset := {| asset_ref := 1; asset_site := site0 |}.
Definition asset1 : Asset := {| asset_ref := 2; asset_site := site1 |}.

Definition losses0 : list Qc := [Q2Qc (1 # 5); Q2Qc (1 # 5)].

Definition output0 : Output :=
  {| assets := [asset0; asset1];
     loss_matrix := [losses0; losses0];
     output_event_loss_table := {[ 7%Z := Q2Qc (2 # 5); 8%Z := Q2Qc (2 # 5) ]};
     insured_curves := false |}.

(** Stand-ins for the library calls of post processing: a curve builder
    that raises on an empty list and returns its losses otherwise. *)
Definition scientific0 : Scientific :=
  {| scientific_event_based := fun losses tses time_span resolution =>
       match losses with
       | [] => Raise ValueError
       | _ => Ok (losses, [tses; time_span])
       end;
     scientific_average_loss := fun losses poes => foldr Qcplus 0 losses;
     numpy_std := fun losses => 0;
     ses_rupture_ids := fun lt_realization => [1; 2; 3]%Z |}.

Definition hazard_output0 : HazardOutput :=
  {| hazard_output_id := 10; lt_realization := 1 |}.

Definition rc0 : RiskCalculation :=
  {| rc_investigation_time := Q2Qc 50; loss_curve_resolution := 20;
     hazard_outputs := [hazard_output0] |}.

Definition hc0 : HazardCalculation :=
  {| ses_per_logic_tree_path := 5; hc_investigation_time := Q2Qc 50 |}.

(** A database of tables of lines for the restore tool; ids are one
    decimal digit, a table that does not exist cannot be read or written. *)
Definition digit_of_string (s : string) : option Z :=
  match s with
  | "1" => Some 1%Z | "2" => Some 2%Z | "3" => Some 3%Z
  | _ => None
  end.

Definition cursor0 : Cursor (gmap string (list string)) :=
  {| select_ids := fun tablename db =>
       match db !! tablename with
       | Some rows => Ok (omap (fun row => digit_of_string (first_field row)) rows)
       | None => Raise DatabaseError
       end;
     copy_from := fun s tablename db =>
       match db !! tablename with
       | Some rows => Ok (<[tablename := rows ++ s]> db)
       | None => Raise DatabaseError
       end;
     int_of_string := digit_of_string |}.

Definition line (id_ : string) (value : string) : string :=
  id_ +:+ String (Ascii.ascii_of_nat 9) value.

(** An archive of two tables; the second file of [tar_bad] has a line
    whose id is not a number. *)
Definition tar_good : gmap string (list string) :=
  {[ "hazard_calculation/FILENAMES.txt" := ["site.csv.gz"; "gmf.csv.gz"];
     "hazard_calculation/site.csv.gz" := [line "1" "a"; line "2" "b"];
     "hazard_calculation/gmf.csv.gz" := [line "3" "c"] ]}.

Definition tar_bad : gmap string (list string) :=
  {[ "hazard_calculation/FILENAMES.txt" := ["site.csv.gz"; "gmf.csv.gz"];
     "hazard_calculation/site.csv.gz" := [line "1" "a"; line "2" "b"];
     "hazard_calculation/gmf.csv.gz" := [line "3" "c"; line "x" "d"] ]}.

Definition db0 : gmap string (list string) :=
  {[ "site" := [line "1" "old"]; "gmf" := [] ]}.

Definition conn0 : Connection (gmap string (list string)) :=
  {| committed := db0; working := db0; calls := [] |}.

End Examples.


(** ** The task: [event_based] *)

(** [event_based]: one [do_event_based] per calculation unit, the table of
    a unit stored under its loss type.  A unit is given by its loss type and
    by what calling it returns.  The effects are those of the units run so
    far; the database transaction around the loop is not modelled. *)
Fixpoint event_based_loop (ruptures : gmap Z SESRupture) (params : CalcParams)
    (units : list (string * (list UnitOutput * option StatisticalOutput)))
    (event_loss_tables : gmap string (gmap Z Qc))
  : list effect * result (gmap string (gmap Z Qc)) :=
  match units with
  | [] => ([], Ok event_loss_tables)
  | (loss_type, unit_result) :: rest =>
      match do_event_based ruptures params unit_result with
      | (effects, Raise e) => (effects, Raise e)
      | (effects, Ok table) =>
          let '(effects', outcome) :=
            event_based_loop ruptures params rest
                             (<[loss_type := table]> event_loss_tables) in
          (effects ++ effects', outcome)
      end
  end.

Definition event_based (ruptures : gmap Z SESRupture) (params : CalcParams)
    (units : list (string * (list UnitOutput * option StatisticalOutput)))
  : list effect * result (gmap string (gmap Z Qc)) :=
  event_based_loop ruptures params units ∅.

(** ** The merge of event loss tables on IEEE doubles *)

(** [Counter.__add__] and [task_completed] with the losses as the program
    holds them, binary64 floats: a sum is the rounded sum of two floats and
    [newcount > 0] is the comparison of floats. *)
Module FloatCounter.

Definition keep_positive (newcount : float) : option float :=
if PrimFloat.ltb 0%float newcount then Some newcount else None.

Definition add_entry (mself mother : option float) : option float :=
match mself, mother with
| Some count, _ => keep_positive (PrimFloat.add count (default 0%float mother))
| None, Some count => keep_positive count
| None, None => None
end.

Definition add (self other : gmap Z float) : gmap Z float :=
merge add_entry self other.

Definition event_loss_table (self : gmap string (gmap Z float)) (loss_type : string)
: gmap Z float :=
default ∅ (self !! loss_type).

Definition task_completed_step (event_loss_tables : gmap string (gmap Z float))
  (loss_type : string) (self : gmap string (gmap Z float))
: result (gmap string (gmap Z float)) :=
match event_loss_tables !! loss_type with
| None => Raise KeyError
| Some task_loss_table =>
    Ok (<[loss_type := add (event_loss_table self loss_type) task_loss_table]> self)
end.

Fixpoint task_completed (loss_types : list string)
  (event_loss_tables : gmap string (gmap Z float))
  (self : gmap string (gmap Z float)) : result (gmap string (gmap Z float)) :=
match loss_types with
| [] => Ok self
| loss_type :: rest =>
    let! self' := task_completed_step event_loss_tables loss_type self in
    task_completed rest event_loss_tables self'
end.


(** A table for one loss type and rupture 1. *)
Definition table_of (loss : float) : gmap string (gmap Z float) :=
{[ "structural" := {[ 1%Z := loss ]} ]}.

End FloatCounter.

(** ** Vocabulary of the further properties *)

(** A key string holds a comma. *)
Fixpoint has_comma (s : string) : bool :=
  match s with
  | EmptyString => false
  | String c rest => bool_decide (c = Ascii.ascii_of_nat 44) || has_comma rest
  end.

(** A write of loss fractions hands over as many assets as keys and as
    fractions. *)
Definition aligned_write (e : effect) : Prop :=
  match e with
  | Write _ output_type _ written_assets keys values =>
      output_type = "loss_fraction" ->
      length written_assets = length keys /\ length keys = length values
  | _ => True
  end.

Definition is_loss_fraction_write (e : effect) : Prop :=
  match e with
  | Write _ output_type _ _ _ _ => output_type = "loss_fraction"
  | _ => False
  end.

(** The lines of a file whose id is not among [ids], with [None] for a
    line whose id cannot be read. *)
Definition line_id {DB} `{Cursor DB} (line : string) : option Z :=
  int_of_string (first_field line).

Definition is_new {DB} `{Cursor DB} (ids : list Z) (line : string) : Prop :=
  match line_id line with
  | Some id_ => id_ ∉ ids
  | None => False
  end.

Global Instance is_new_dec {DB} `{Cursor DB} ids line : Decision (is_new ids line).
Proof. unfold is_new. destruct (line_id line); apply _. Defined.

Module MoreExamples.

(** A rupture of magnitude 6 at 12.5 km, with closest point (1.5, 0.5). *)
Definition surface1 : Surface :=
{| get_joyner_boore_distance := fun _ => Q2Qc (25 # 2);
   get_closest_points := fun _ =>
     {| longitude := Q2Qc (3 # 2); latitude := Q2Qc (1 # 2) |} |}.

Definition rupture1 : SESRupture := {| magnitude := Q2Qc 6; surface := surface1 |}.

Definition ruptures1 : gmap Z SESRupture := {[ 9%Z := rupture1 ]}.

(** Bin widths 0.5, 10 and 1. *)
Definition params1 : CalcParams :=
{| conditional_loss_poes := []; quantiles := [];
   sites_disagg := [Examples.site0];
   mag_bin_width := Q2Qc (1 # 2);
   distance_bin_width := Qc_of_Z 10;
   coordinate_bin_width := 1 |}.

(** No site to disaggregate. *)
Definition params_no_sites : CalcParams :=
{| conditional_loss_poes := []; quantiles := [];
   sites_disagg := [];
   mag_bin_width := 0; distance_bin_width := 0; coordinate_bin_width := 0 |}.

Definition unit_output0 : UnitOutput := {| hid := 1; output := Examples.output0 |}.

(** One listed asset with a single loss ratio, to pair with two rupture ids. *)
Definition output_short_row : Output :=
{| assets := [Examples.asset0];
   loss_matrix := [[Q2Qc (1 # 5)]];
   output_event_loss_table := {[ 7%Z := Q2Qc (1 # 5); 8%Z := Q2Qc (1 # 5) ]};
   insured_curves := false |}.

(** A task with tables for two loss types, and a running state that has a
  table for the second one only. *)
Definition task_two_loss_types : gmap string (gmap Z Qc) :=
{[ "structural" := {[ 1%Z := 1 ]}; "contents" := {[ 2%Z := 1 ]} ]}.

Definition running_contents : gmap string (gmap Z Qc) :=
{[ "contents" := {[ 5%Z := Q2Qc 3 ]} ]}.

End MoreExamples.

(** * Part II: properties *)



(** Order goals on [Qc] are sent to [lra] on the underlying fractions. *)
Ltac qc_order :=
  unfold Qclt, Qcle, Qcplus, Qcmult, Qcopp, Q2Qc in *; simpl in *;
  rewrite ?Qred_correct in *; lra.

(** Closed decidable goals are settled by evaluation. *)
Ltac by_compute :=
  match goal with
  | |- ?P => apply (bool_decide_eq_true_1 P); vm_compute; reflexivity
  end.

(** ** Properties of [Counter.add] *)

Section counter_facts.
Import Counter.
Implicit Types self other s a b : gmap Z Qc.

Lemma keep_positive_Some x y : keep_positive x = Some y <-> 0 < x /\ y = x.
Proof.
  unfold keep_positive. destruct (decide (0 < x)) as [Hx|Hx]; split.
  - by intros [= <-].
  - by intros [_ ->].
  - done.
  - by intros [? _].
Qed.

Lemma keep_positive_None x : keep_positive x = None <-> ~ 0 < x.
Proof. unfold keep_positive. by destruct (decide (0 < x)). Qed.

Lemma decide_True_keep_positive x : 0 < x -> keep_positive x = Some x.
Proof. intros. by apply keep_positive_Some. Qed.

Lemma lookup_add self other elem :
  add self other !! elem = add_entry (self !! elem) (other !! elem).
Proof. unfold add. by rewrite lookup_merge; destruct (self !! elem), (other !! elem). Qed.

Lemma positive_nonneg s : positive s -> nonneg s.
Proof. intros H k x Hk. specialize (H k x Hk). simpl in *. qc_order. Qed.


Lemma positive_empty : positive ∅.
Proof. apply map_Forall_empty. Qed.

(** Whatever the operands, a sum holds positive counts only. *)
Lemma add_positive self other : positive (add self other).
Proof.
  intros k x. rewrite lookup_add. unfold add_entry.
  destruct (self !! k), (other !! k); simpl; try done;
    intros [? ->]%keep_positive_Some; done.
Qed.

(** On tables of non-negative losses a sum reads as the sum of the reads. *)
Lemma get_add s a elem :
  nonneg s -> nonneg a -> get (add s a) elem = get s elem + get a elem.
Proof.
  intros Hs Ha. unfold get. rewrite lookup_add.
  destruct (s !! elem) as [x|] eqn:Ex, (a !! elem) as [y|] eqn:Ey; simpl.
  - apply Hs in Ex. apply Ha in Ey. simpl in *.
    unfold keep_positive. case_decide; simpl; [done|].
    apply Qc_is_canon. qc_order.
  - apply Hs in Ex. simpl in *.
    unfold keep_positive. case_decide; simpl; [done|].
    apply Qc_is_canon. qc_order.
  - apply Ha in Ey. simpl in *.
    unfold keep_positive. case_decide; simpl; [ring|].
    apply Qc_is_canon. qc_order.
  - ring.
Qed.



End counter_facts.

(** ** Properties of [task_completed] *)

Section task_completed_facts.
Implicit Types self A B : gmap string (gmap Z Qc).
Implicit Types loss_type : string.


Lemma event_loss_table_positive self loss_type :
  tables_positive self -> Counter.positive (event_loss_table self loss_type).
Proof.
  intros H. unfold event_loss_table.
  destruct (self !! loss_type) as [c|] eqn:E; simpl.
  - by apply (H loss_type).
  - apply positive_empty.
Qed.

Lemma tables_positive_nonneg self : tables_positive self -> tables_nonneg self.
Proof. intros H k c Hk. apply positive_nonneg. by apply (H k). Qed.

Lemma event_loss_table_insert self loss_type loss_type' c :
  event_loss_table (<[loss_type := c]> self) loss_type' =
  if decide (loss_type = loss_type') then c else event_loss_table self loss_type'.
Proof.
  unfold event_loss_table. rewrite lookup_insert.
  by destruct (decide (loss_type = loss_type')).
Qed.

Lemma task_completed_step_Ok A loss_type self self' :
  task_completed_step A loss_type self = Ok self' ->
  exists a, A !! loss_type = Some a /\
    self' = <[loss_type := Counter.add (event_loss_table self loss_type) a]> self.
Proof.
  unfold task_completed_step. destruct (A !! loss_type); [|done].
  intros [= <-]. eauto.
Qed.

Lemma task_completed_step_nonneg A loss_type self self' :
  tables_nonneg self ->
  task_completed_step A loss_type self = Ok self' -> tables_nonneg self'.
Proof.
  intros Hs (a & _ & ->)%task_completed_step_Ok.
  apply map_Forall_insert_2; [|done].
  apply positive_nonneg, add_positive.
Qed.

Lemma task_completed_step_positive A loss_type self self' :
  tables_positive self ->
  task_completed_step A loss_type self = Ok self' -> tables_positive self'.
Proof.
  intros Hs (a & _ & ->)%task_completed_step_Ok.
  apply map_Forall_insert_2; [|done]. apply add_positive.
Qed.


Lemma task_completed_nonneg loss_types A self self' :
  tables_nonneg self ->
  task_completed loss_types A self = Ok self' -> tables_nonneg self'.
Proof.
  revert self. induction loss_types as [|l rest IH]; intros self Hs; simpl.
  - by intros [= <-].
  - destruct (task_completed_step A l self) as [s1|] eqn:E; [|done]. simpl.
    apply IH. by eapply task_completed_step_nonneg.
Qed.

(** Accumulation keeps the tables free of non-positive entries. *)
Lemma task_completed_positive loss_types A self self' :
  tables_positive self ->
  task_completed loss_types A self = Ok self' -> tables_positive self'.
Proof.
  revert self. induction loss_types as [|l rest IH]; intros self Hs; simpl.
  - by intros [= <-].
  - destruct (task_completed_step A l self) as [s1|] eqn:E; [|done]. simpl.
    apply IH. by eapply task_completed_step_positive.
Qed.



End task_completed_facts.

(** ** The key set of an accumulated table *)

Section counter_keys.
Import Counter.
Implicit Types s a : gmap Z Qc.

(** The keys of a table whose loss is strictly positive. *)
Lemma dom_add s a :
  positive s -> nonneg a ->
  dom (add s a) = dom s ∪ dom (filter (fun kv => 0 < kv.2) a).
Proof.
  intros Hs Ha. apply set_eq. intros k.
  rewrite elem_of_union, !elem_of_dom, lookup_add. unfold is_Some.
  setoid_rewrite map_lookup_filter_Some. unfold add_entry.
  destruct (s !! k) as [x|] eqn:Ex, (a !! k) as [y|] eqn:Ey; simpl.
  - apply Hs in Ex. apply Ha in Ey. simpl in *.
    rewrite decide_True_keep_positive; [naive_solver|qc_order].
  - apply Hs in Ex. simpl in *.
    rewrite decide_True_keep_positive; [naive_solver|qc_order].
  - unfold keep_positive. destruct (decide (0 < y)); naive_solver.
  - naive_solver.
Qed.

End counter_keys.

Section accumulated_keys.
Implicit Types self A : gmap string (gmap Z Qc).

Lemma task_completed_dom loss_types A self self' :
  tables_positive self -> tables_nonneg A ->
  task_completed loss_types A self = Ok self' ->
  forall loss_type,
    dom (event_loss_table self' loss_type) =
    dom (event_loss_table self loss_type) ∪
    (if decide (loss_type ∈ loss_types) then added_keys A loss_type else ∅).
Proof.
  intros Hs HA. revert self Hs.
  induction loss_types as [|l rest IH]; intros self Hs; simpl.
  - intros [= <-] lt. set_solver.
  - destruct (task_completed_step A l self) as [s1|] eqn:E; [|done]. simpl.
    intros Htc lt.
    pose proof (task_completed_step_positive _ _ _ _ Hs E) as Hs1.
    apply task_completed_step_Ok in E as (a & Ea & ->).
    rewrite (IH _ Hs1 Htc lt), event_loss_table_insert.
    destruct (decide (l = lt)) as [->|Hne].
    + rewrite (decide_True (P := lt ∈ lt :: rest)) by apply list_elem_of_here.
      rewrite dom_add;
        [|by apply event_loss_table_positive|by apply (HA lt)].
      assert (added_keys A lt = dom (filter (fun kv : Z * Qc => 0 < kv.2) a))
        as -> by (unfold added_keys, event_loss_table; by rewrite Ea).
      destruct (decide (lt ∈ rest)); set_solver.
    + destruct (decide (lt ∈ rest)) as [Hin|Hnin].
      * by rewrite decide_True by by apply list_elem_of_further.
      * rewrite decide_False; [done|].
        intros [?|?]%elem_of_cons; congruence.
Qed.

End accumulated_keys.

(** ** Accumulation of partial event loss tables (claims C4 and C5) *)


Lemma tables_nonneg_table_of loss : 0 <= loss -> tables_nonneg (Examples.table_of loss).
Proof.
  intros Hloss. apply map_Forall_singleton. by apply map_Forall_singleton.
Qed.



(** C5, as stated, fails: a rupture whose loss is zero in the partial table
    and that is not yet in the running table is not added, so the key set
    after the call is not the union of the two key sets. *)
Lemma task_completed_drops_zero_loss_key :
  task_completed [Examples.structural] (Examples.table_of 0) ∅
    = Ok {[ Examples.structural := ∅ ]} /\
  dom (event_loss_table {[ Examples.structural := ∅ ]} Examples.structural) <>
  dom (event_loss_table ∅ Examples.structural) ∪
  dom (event_loss_table (Examples.table_of 0) Examples.structural).
Proof.
  split.
  - by_compute.
  - by_compute.
Qed.

(** C5, amended: for a running table whose entries are positive, as every
    table accumulated from the empty one is, and a partial table of
    non-negative losses, a [task_completed] call that returns leaves, for
    every loss type, a key set that contains the previous one (no key
    disappears) and, for the loss types of the calculation, equals the
    previous key set united with the keys of the partial table whose loss
    is strictly positive; the entries stay positive. *)
Theorem task_completed_keys loss_types (self A self' : gmap string (gmap Z Qc)) :
  tables_positive self -> tables_nonneg A ->
  task_completed loss_types A self = Ok self' ->
  tables_positive self' /\
  forall loss_type,
    dom (event_loss_table self loss_type) ⊆ dom (event_loss_table self' loss_type) /\
    (loss_type ∈ loss_types ->
     dom (event_loss_table self' loss_type) =
     dom (event_loss_table self loss_type) ∪ added_keys A loss_type).
Proof.
  intros Hs HA Htc. split; [by eapply task_completed_positive|].
  intros lt. rewrite (task_completed_dom _ _ _ _ Hs HA Htc lt). split.
  - set_solver.
  - intros Hin. by rewrite decide_True.
Qed.

Lemma task_completed_keys_witness :
  tables_positive {[ Examples.structural := {[ 1%Z := 1 ]} ]} /\
  forall loss_type,
    dom (event_loss_table ∅ loss_type) ⊆
    dom (event_loss_table {[ Examples.structural := {[ 1%Z := 1 ]} ]} loss_type) /\
    (loss_type ∈ [Examples.structural] ->
     dom (event_loss_table {[ Examples.structural := {[ 1%Z := 1 ]} ]} loss_type) =
     dom (event_loss_table ∅ loss_type) ∪ added_keys (Examples.table_of 1) loss_type).
Proof.
  apply (task_completed_keys [Examples.structural] ∅ (Examples.table_of 1)).
  - apply map_Forall_empty.
  - apply tables_nonneg_table_of. by vm_compute.
  - by_compute.
Defined.

(** ** Running a fallible function over a list *)

Section result_mapM_facts.
Context {A B : Type} (f : A -> result B).

Lemma result_mapM_Ok (l : list A) (bs : list B) :
  result_mapM f l = Ok bs <-> Forall2 (fun a b => f a = Ok b) l bs.
Proof.
  revert bs. induction l as [|a l IH]; intros bs; simpl.
  - split.
    + intros [= <-]. constructor.
    + by intros ->%Forall2_nil_inv_l.
  - split.
    + destruct (f a) as [b|] eqn:Ea; [|done]. simpl.
      destruct (result_mapM f l) as [bs'|] eqn:El; [|done]. simpl.
      intros [= <-]. constructor; [done|]. by apply IH.
    + intros (b & bs' & Hb & Hbs & ->)%Forall2_cons_inv_l.
      rewrite Hb. simpl. apply IH in Hbs. by rewrite Hbs.
Qed.

Lemma result_mapM_length (l : list A) (bs : list B) :
  result_mapM f l = Ok bs -> length bs = length l.
Proof. intros H%result_mapM_Ok. symmetry. by eapply Forall2_length. Qed.

Lemma result_mapM_returns (l : list A) :
  Forall (fun a => exists b, f a = Ok b) l -> exists bs, result_mapM f l = Ok bs.
Proof.
  induction 1 as [|a l [b Hb] _ [bs Hbs]]; simpl.
  - by eexists.
  - rewrite Hb, Hbs. by eexists.
Qed.

End result_mapM_facts.

(** ** The bin keys of the code *)

Lemma py_int_Qc_of_Z (n : Z) : py_int (Qc_of_Z n) = n.
Proof. unfold py_int. simpl. apply Z.quot_1_r. Qed.

(** On a non-negative value the cut toward zero is the floor. *)
Lemma py_int_nonneg (v : Qc) : 0 <= v -> py_int v = Qfloor v.
Proof.
  intros Hv. unfold py_int. destruct v as [[n d] Hcanon]. simpl.
  apply Z.quot_div_nonneg; [|done].
  unfold Qcle, Qle in Hv. simpl in Hv. lia.
Qed.

Lemma format_d_numpy_floor (v : Qc) : format_d (numpy_floor v) = format_Z (Qfloor v).
Proof. unfold format_d, numpy_floor, format_Z. by rewrite py_int_Qc_of_Z. Qed.

Lemma py_div_Ok (a b : Qc) : b <> 0 -> py_div a b = Ok (a / b).
Proof. intros. unfold py_div. by rewrite decide_False. Qed.

(** What [disaggregate_site] emits for one rupture when no bin width is
    zero: the magnitude bin is the floor of the quotient, the distance is
    floored before it is divided, and the quotients of distance, longitude
    and latitude are cut toward zero by the [%d] conversion. *)
Lemma disaggregate_rupture_keys ruptures params site fraction rupture_id rupture :
  mag_bin_width params <> 0 -> distance_bin_width params <> 0 ->
  coordinate_bin_width params <> 0 ->
  ruptures !! rupture_id = Some rupture ->
  let closest := get_closest_points (surface rupture) site in
  disaggregate_rupture ruptures params site (fraction, rupture_id) =
  Ok (format_Z (Qfloor (magnitude rupture / mag_bin_width params)%Qc) +:+ "," +:+
      format_Z (py_int (numpy_floor (get_joyner_boore_distance (surface rupture) site)
                        / distance_bin_width params)),
      format_Z (py_int (longitude closest / coordinate_bin_width params)) +:+ "," +:+
      format_Z (py_int (latitude closest / coordinate_bin_width params)),
      fraction).
Proof.
  intros Hm Hd Hc Hr. unfold disaggregate_rupture, SESRupture_get.
  rewrite Hr. cbn [rbind].
  rewrite (py_div_Ok _ _ Hm). cbn [rbind].
  rewrite (py_div_Ok _ _ Hd). cbn [rbind].
  rewrite !(py_div_Ok _ _ Hc). cbn [rbind].
  unfold format_d_d. by rewrite format_d_numpy_floor.
Qed.

(** ** Disaggregation keys (claim C1) *)

(** C1: the code and the claim at a rupture of magnitude 6, at 1.5 km from
    the site, with closest point (-1.5, 0.5), for bin widths 0.5, 0.5 and 1.
    The code emits the keys ["12,2"] and ["-1,0"]: it floors the distance
    before it divides it by the bin width, and it leaves the cut of the
    coordinate quotients to the [%d] conversion, which rounds toward zero.
    The keys of the claim are ["12,3"] and ["-2,0"]. *)
Theorem disaggregate_site_keys_differ_from_floor :
  disaggregate_site Examples.ruptures0 Examples.params0 [7%Z] Examples.site0
                    [Q2Qc (1 # 5)]
    = Ok [("12,2", "-1,0", Q2Qc (1 # 5))] /\
  spec_keys Examples.params0 Examples.rupture0 Examples.site0 = ("12,3", "-2,0").
Proof. split; by_compute. Qed.

(** ** Pairing of fractions and ruptures (claim C2) *)

(** C2, as stated, fails in its last part: the fraction emitted is the entry
    of the loss-ratio row as it stands, not its share of the row's total.
    For the row [0.2, 0.2] the fractions emitted are 0.2 and 0.2, the shares
    of the total are 0.5 and 0.5. *)
Lemma disaggregate_site_fraction_not_share :
  (disaggregate_site Examples.ruptures0 Examples.params0 [7%Z; 8%Z]
                     Examples.site0 Examples.losses0
     = Ok [("12,2", "-1,0", Q2Qc (1 # 5)); ("12,2", "-1,0", Q2Qc (1 # 5))]) /\
  map (share_of_total Examples.losses0) Examples.losses0 = [Q2Qc (1 # 2); Q2Qc (1 # 2)] /\
  [Q2Qc (1 # 5); Q2Qc (1 # 5)] <> [Q2Qc (1 # 2); Q2Qc (1 # 2)].
Proof. split_and!; by_compute. Qed.

(** C2, amended: for a site to disaggregate, when no bin width is zero and
    the rupture ids are those of stored ruptures, [disaggregate_site] emits
    one row per position of the loss-ratio row that has a rupture id; the
    row at a position holds the keys of the rupture whose id is at that
    position and, as its fraction, the loss ratio at that position,
    unchanged. *)
Theorem disaggregate_site_pairs ruptures params rupture_ids site loss_ratios :
  mag_bin_width params <> 0 -> distance_bin_width params <> 0 ->
  coordinate_bin_width params <> 0 ->
  Forall (fun rupture_id => is_Some (ruptures !! rupture_id)) rupture_ids ->
  exists rows,
    disaggregate_site ruptures params rupture_ids site loss_ratios = Ok rows /\
    length rows = (length loss_ratios `min` length rupture_ids)%nat /\
    forall i fraction rupture_id,
      loss_ratios !! i = Some fraction -> rupture_ids !! i = Some rupture_id ->
      exists key_md key_c,
        disaggregate_rupture ruptures params site (fraction, rupture_id)
          = Ok (key_md, key_c, fraction) /\
        rows !! i = Some (key_md, key_c, fraction).
Proof.
  intros Hm Hd Hc Hids. unfold disaggregate_site.
  destruct (result_mapM_returns (disaggregate_rupture ruptures params site)
              (zip loss_ratios rupture_ids)) as [rows Hrows].
  { apply Forall_forall. intros [fraction rupture_id] Hin.
    apply elem_of_zip_r in Hin.
    rewrite Forall_forall in Hids. destruct (Hids _ Hin) as [rupture Hr].
    eexists. by apply disaggregate_rupture_keys. }
  exists rows. split; [done|]. split.
  - rewrite (result_mapM_length _ _ _ Hrows). apply length_zip_with.
  - intros i fraction rupture_id Hf Hr.
    apply result_mapM_Ok in Hrows.
    assert (zip loss_ratios rupture_ids !! i = Some (fraction, rupture_id)) as Hz.
    { rewrite lookup_zip_with. by rewrite Hf, Hr. }
    destruct (Forall2_lookup_l _ _ _ _ _ Hrows Hz) as ([[key_md key_c] fr] & Hrow & Hb).
    assert (fr = fraction) as ->.
    { rewrite Forall_forall in Hids.
      destruct (Hids rupture_id) as [rupture Hrup].
      { by eapply list_elem_of_lookup_2. }
      rewrite (disaggregate_rupture_keys _ _ _ _ _ _ Hm Hd Hc Hrup) in Hb.
      by injection Hb as _ _ ->. }
    by exists key_md, key_c.
Qed.

Lemma disaggregate_site_pairs_witness :
  exists rows,
    disaggregate_site Examples.ruptures0 Examples.params0 [7%Z; 8%Z]
                      Examples.site0 Examples.losses0 = Ok rows /\
    length rows = (length Examples.losses0 `min` length [7%Z; 8%Z])%nat /\
    forall i fraction rupture_id,
      Examples.losses0 !! i = Some fraction -> [7%Z; 8%Z] !! i = Some rupture_id ->
      exists key_md key_c,
        disaggregate_rupture Examples.ruptures0 Examples.params0 Examples.site0
                             (fraction, rupture_id)
          = Ok (key_md, key_c, fraction) /\
        rows !! i = Some (key_md, key_c, fraction).
Proof.
  apply (disaggregate_site_pairs Examples.ruptures0 Examples.params0 [7%Z; 8%Z]
           Examples.site0 Examples.losses0).
  - by_compute.
  - by_compute.
  - by_compute.
  - repeat constructor; by_compute.
Defined.

(** ** Alignment of the disaggregation outputs (claim C3) *)

Section disaggregate_facts.
Variables (ruptures : gmap Z SESRupture) (params : CalcParams) (rupture_ids : list Z).

Lemma fst_map_pair {A B} (a : A) (l : list B) :
  (map (pair a) l).*1 = replicate (length l) a.
Proof. induction l as [|b l IH]; [done|]. csimpl. by rewrite IH. Qed.

Lemma snd_map_pair {A B} (a : A) (l : list B) : (map (pair a) l).*2 = l.
Proof. induction l as [|b l IH]; [done|]. csimpl. by rewrite IH. Qed.

Lemma disaggregate_site_length site loss_ratios rows :
  disaggregate_site ruptures params rupture_ids site loss_ratios = Ok rows ->
  length rows = (length loss_ratios `min` length rupture_ids)%nat.
Proof.
  intros H%result_mapM_length. rewrite H. apply length_zip_with.
Qed.

Lemma disaggregate_loop_rows pairs acc_assets acc_rows assets' rows' :
  rows_cover_ruptures params rupture_ids pairs ->
  disaggregate_loop ruptures params rupture_ids pairs acc_assets acc_rows
    = Ok (assets', rows') ->
  exists tagged,
    rows_with_assets ruptures params rupture_ids pairs = Ok tagged /\
    iter_items assets' = iter_items acc_assets ++ tagged.*1 /\
    rows' = acc_rows ++ tagged.*2 /\
    (assets' = acc_assets \/ exists items, assets' = Chain items).
Proof.
  intros Hcover. revert acc_assets acc_rows.
  induction Hcover as [|[asset losses] pairs Hhere _ IH];
    intros acc_assets acc_rows; simpl.
  - intros [= <- <-]. exists []. by rewrite !app_nil_r; auto.
  - destruct (decide (asset_site asset ∈ sites_disagg params)) as [Hin|Hnin].
    + destruct (disaggregate_site ruptures params rupture_ids
                  (asset_site asset) losses) as [rows|] eqn:Erows; [|done].
      cbn [rbind rmap]. intros Hloop.
      destruct (IH _ _ Hloop) as (tagged & -> & Hitems & Hrows & _).
      exists (map (pair asset) rows ++ tagged). split_and!.
      * done.
      * rewrite Hitems. simpl. rewrite fmap_app, fst_map_pair.
        rewrite (disaggregate_site_length _ _ _ Erows).
        specialize (Hhere Hin). simpl in Hhere.
        rewrite Nat.min_r by done. by rewrite <- app_assoc.
      * rewrite Hrows, fmap_app, snd_map_pair. by rewrite <- app_assoc.
      * destruct (IH _ _ Hloop) as (_ & _ & _ & _ & [->|?]); eauto.
    + intros Hloop. destruct (IH _ _ Hloop) as (tagged & -> & Hitems & Hrows & Hor).
      exists tagged. by split_and!.
Qed.

Lemma rows_with_assets_sites pairs tagged :
  rows_with_assets ruptures params rupture_ids pairs = Ok tagged ->
  Forall (fun row => asset_site row.1 ∈ sites_disagg params) tagged.
Proof.
  revert tagged. induction pairs as [|[asset losses] pairs IH]; intros tagged; simpl.
  - intros [= <-]. constructor.
  - destruct (decide (asset_site asset ∈ sites_disagg params)) as [Hin|Hnin].
    + destruct (disaggregate_site ruptures params rupture_ids
                  (asset_site asset) losses) as [rows|]; [|done].
      destruct (rows_with_assets ruptures params rupture_ids pairs)
        as [there|]; [|done].
      cbn [rbind rmap]. intros [= <-]. apply Forall_app. split; [|by apply IH].
      apply Forall_forall. by intros [a row] [? [[= -> ->] _]]%list_elem_of_fmap.
    + destruct (rows_with_assets ruptures params rupture_ids pairs)
        as [there|]; [|done].
      cbn [rbind]. intros [= <-]. by apply IH.
Qed.

End disaggregate_facts.

(** C3, as stated, fails: an asset at a listed site is repeated once per
    rupture id of the list, not once per rupture it was paired with.  For a
    loss row of one loss ratio and two rupture ids, one row is produced and
    the asset appears twice: the assets are not aligned with the rows. *)
Lemma disaggregate_repeats_asset_per_rupture_id :
  exists out,
    disaggregate Examples.ruptures0 MoreExamples.output_short_row [7%Z; 8%Z]
                 Examples.params0 = Ok out /\
    iter_items (assets_disagg out) = [Examples.asset0; Examples.asset0] /\
    magnitude_distance out = ["12,2"] /\
    coordinate out = ["-1,0"] /\
    fractions out = [Q2Qc (1 # 5)] /\
    length (iter_items (assets_disagg out)) <> length (fractions out).
Proof.
  eexists. split; [vm_compute; reflexivity|]. simpl. split_and!; try reflexivity.
  discriminate.
Qed.

(** C3, amended: in the outputs that [disaggregate] returns, when every
    asset at a listed site has a loss ratio for every rupture id of the
    list, the four arrays are the four columns of one list of rows: the
    rows that the contract describes, in which an asset whose site is
    listed appears once per rupture it is paired with and an asset whose
    site is not listed does not appear. *)
Theorem disaggregate_assets_aligned ruptures outputs rupture_ids params out :
  rows_cover_ruptures params rupture_ids (zip (assets outputs) (loss_matrix outputs)) ->
  disaggregate ruptures outputs rupture_ids params = Ok out ->
  exists tagged,
    rows_with_assets ruptures params rupture_ids
                     (zip (assets outputs) (loss_matrix outputs)) = Ok tagged /\
    Forall (fun row => asset_site row.1 ∈ sites_disagg params) tagged /\
    iter_items (assets_disagg out) = tagged.*1 /\
    magnitude_distance out = tagged.*2.*1.*1 /\
    coordinate out = tagged.*2.*1.*2 /\
    fractions out = tagged.*2.*2.
Proof.
  intros Hcover Hout. unfold disaggregate in Hout.
  destruct (disaggregate_loop ruptures params rupture_ids
              (zip (assets outputs) (loss_matrix outputs)) (PyList []) [])
    as [[assets' rows']|] eqn:Eloop; [|done]. cbn [rbind] in Hout.
  destruct (disaggregate_loop_rows _ _ _ _ _ _ _ _ Hcover Eloop)
    as (tagged & Htagged & Hitems & -> & Hor).
  simpl in Hitems. exists tagged.
  pose proof (rows_with_assets_sites _ _ _ _ _ Htagged) as Hsites.
  destruct (truthy assets') eqn:Etruthy.
  - destruct tagged as [|row tagged]; [done|].
    cbn [rbind unzip_rows app fmap list_fmap] in Hout.
    injection Hout as <-. by split_and!.
  - injection Hout as <-. simpl.
    destruct assets' as [[|? ?]|?]; try done. simpl in Hitems.
    symmetry in Hitems. apply fmap_nil_inv in Hitems as ->. by split_and!.
Qed.

Lemma disaggregate_assets_aligned_witness :
  exists out tagged,
    disaggregate Examples.ruptures0 Examples.output0 [7%Z; 8%Z] Examples.params0
      = Ok out /\
    rows_with_assets Examples.ruptures0 Examples.params0 [7%Z; 8%Z]
      (zip (assets Examples.output0) (loss_matrix Examples.output0)) = Ok tagged /\
    Forall (fun row => asset_site row.1 ∈ sites_disagg Examples.params0) tagged /\
    iter_items (assets_disagg out) = tagged.*1 /\
    magnitude_distance out = tagged.*2.*1.*1 /\
    coordinate out = tagged.*2.*1.*2 /\
    fractions out = tagged.*2.*2.
Proof.
  destruct (disaggregate Examples.ruptures0 Examples.output0 [7%Z; 8%Z]
              Examples.params0) as [out|e] eqn:E.
  - exists out.
    destruct (disaggregate_assets_aligned Examples.ruptures0 Examples.output0
                [7%Z; 8%Z] Examples.params0 out) as (tagged & H).
    + repeat constructor; simpl; intros; lia.
    + exact E.
    + exists tagged. split; [reflexivity|exact H].
  - exfalso. vm_compute in E. discriminate E.
Defined.

(** ** A calculation unit without outputs (claim C8) *)

(** C8: when the calculation unit yields no output, [do_event_based] logs one
    informational message, writes nothing, raises nothing and returns the
    empty counter, whatever the statistics and the parameters. *)
Theorem do_event_based_no_outputs ruptures params stats :
  do_event_based ruptures params ([], stats) =
  ([LogInfo "Exit from task as no asset could be processed"], Ok ∅).
Proof. reflexivity. Qed.

(** ** Aggregate loss curves (claims C6 and C7) *)

Section post_process_facts.
Context `{Scientific}.
Variables (rc : RiskCalculation) (hc : HazardCalculation).

(** The comprehension keeps, in the order of the rupture ids, the loss of
    every rupture that has an entry and skips the others. *)
Lemma aggregate_losses_of_omap (event_loss_table : gmap Z Qc) rupture_ids :
  aggregate_losses_of event_loss_table rupture_ids =
  omap (fun rupture_id => event_loss_table !! rupture_id) rupture_ids.
Proof.
  unfold aggregate_losses_of.
  induction rupture_ids as [|r rupture_ids IH]; [done|].
  rewrite filter_cons.
  destruct (decide (recorded event_loss_table r)) as [[loss E]|Hnone]; simpl.
  - unfold Counter.get at 1. rewrite E. simpl. by f_equal.
  - apply eq_None_not_Some in Hnone. by rewrite Hnone.
Qed.

Lemma filter_recorded_nil (event_loss_table : gmap Z Qc) rupture_ids :
  Forall (fun rupture_id => event_loss_table !! rupture_id = None) rupture_ids ->
  filter (recorded event_loss_table) rupture_ids = [].
Proof.
  induction 1 as [|r rupture_ids Hr _ IH]; [done|].
  rewrite filter_cons, decide_False; [done|].
  unfold recorded. rewrite Hr. by intros [? ?].
Qed.

Lemma post_process_one_unrecorded loss_type event_loss_table hazard_output :
  Forall (fun rupture_id => event_loss_table !! rupture_id = None)
         (ses_rupture_ids (lt_realization hazard_output)) ->
  post_process_one rc hc loss_type event_loss_table hazard_output
    = Ok [EventLoss loss_type hazard_output].
Proof.
  intros Hnone. unfold post_process_one, aggregate_losses_of. simpl.
  by rewrite (filter_recorded_nil _ _ Hnone).
Qed.

(** The rows of one loss type and hazard output carry both. *)
Lemma post_process_one_curve_row loss_type event_loss_table hazard_output rows
    loss_type' hazard_output' losses poes average_loss stddev_loss :
  post_process_one rc hc loss_type event_loss_table hazard_output = Ok rows ->
  AggregateLossCurveData loss_type' hazard_output' losses poes
                         average_loss stddev_loss ∈ rows ->
  loss_type' = loss_type /\ hazard_output' = hazard_output.
Proof.
  unfold post_process_one. simpl.
  destruct (aggregate_losses_of event_loss_table
              (ses_rupture_ids (lt_realization hazard_output))) as [|l ls].
  - intros [= <-] [Hrow|Hrow]%elem_of_cons; [done|].
    by apply list_elem_of_fmap in Hrow as (? & ? & _).
  - destruct (scientific_event_based _ _ _ _) as [[ls' ps']|]; [|done].
    cbn [rbind]. intros [= <-] [Hrow|Hrow]%elem_of_cons; [done|].
    apply elem_of_app in Hrow as [Hrow|Hrow].
    + by apply list_elem_of_fmap in Hrow as (? & ? & _).
    + apply list_elem_of_singleton in Hrow. by injection Hrow as -> -> _ _ _ _.
Qed.

Lemma result_mapM_join_elem {A B} (f : A -> result (list B)) (l : list A) rows x :
  mjoin <$$> result_mapM f l = Ok rows -> x ∈ rows ->
  exists a b, a ∈ l /\ f a = Ok b /\ x ∈ b.
Proof.
  destruct (result_mapM f l) as [bs|] eqn:E; [|done]. simpl. intros [= <-].
  apply result_mapM_Ok in E.
  intros (b & Hx & Hb)%list_elem_of_join.
  apply list_elem_of_lookup in Hb as [i Hi].
  destruct (Forall2_lookup_r _ _ _ _ _ E Hi) as (a & Ha & Hfa).
  exists a, b. split_and!; [|done..]. by eapply list_elem_of_lookup_2.
Qed.

Lemma result_mapM_join_intro {A B} (f : A -> result (list B)) (l : list A) rows a :
mjoin <$$> result_mapM f l = Ok rows -> a ∈ l ->
exists b, f a = Ok b /\ forall x, x ∈ b -> x ∈ rows.
Proof.
destruct (result_mapM f l) as [bs|] eqn:E; [|done]. simpl. intros [= <-].
apply result_mapM_Ok in E.
intros [i Hi]%list_elem_of_lookup.
destruct (Forall2_lookup_l _ _ _ _ _ E Hi) as (b & Hb & Hfa).
exists b. split; [done|]. intros x Hx. apply list_elem_of_join.
exists b. split; [done|]. by eapply list_elem_of_lookup_2.
Qed.

End post_process_facts.

(** C6: for a hazard output of a realization none of whose ruptures has an
    entry in the event loss table of a loss type, the body of
    [post_process] returns, without calling the curve builder and without
    raising, the event loss row alone; and whenever [post_process] returns,
    its rows hold no aggregate loss curve for that loss type and hazard
    output. *)
Theorem post_process_no_curve_without_losses `{Scientific} rc hc
    (self : gmap string (gmap Z Qc)) loss_type event_loss_table hazard_output :
  self !! loss_type = Some event_loss_table ->
  Forall (fun rupture_id => event_loss_table !! rupture_id = None)
         (ses_rupture_ids (lt_realization hazard_output)) ->
  post_process_one rc hc loss_type event_loss_table hazard_output
    = Ok [EventLoss loss_type hazard_output] /\
  forall rows, post_process rc hc self = Ok rows ->
    forall losses poes average_loss stddev_loss,
      AggregateLossCurveData loss_type hazard_output losses poes
                             average_loss stddev_loss ∉ rows.
Proof.
  intros Hself Hnone.
  pose proof (post_process_one_unrecorded rc hc loss_type _ _ Hnone) as Hone.
  split; [done|].
  intros rows Hrows losses poes average_loss stddev_loss Hin.
  unfold post_process in Hrows.
  destruct (result_mapM_join_elem _ _ _ _ Hrows Hin)
    as ([loss_type' table'] & rows' & Hitem & Hrows' & Hin').
  simpl in Hrows'.
  destruct (result_mapM_join_elem _ _ _ _ Hrows' Hin')
    as (hazard_output' & rows'' & _ & Hone' & Hin'').
  destruct (post_process_one_curve_row _ _ _ _ _ _ _ _ _ _ _ _ Hone' Hin'')
    as [<- <-].
  apply elem_of_map_to_list in Hitem.
  assert (table' = event_loss_table) as -> by congruence.
  rewrite Hone in Hone'. injection Hone' as <-.
  by apply list_elem_of_singleton in Hin''.
Qed.

Lemma post_process_no_curve_without_losses_witness :
  @post_process_one Examples.scientific0 Examples.rc0 Examples.hc0
     Examples.structural ∅ Examples.hazard_output0
    = Ok [EventLoss Examples.structural Examples.hazard_output0] /\
  forall rows,
    @post_process Examples.scientific0 Examples.rc0 Examples.hc0
                  {[ Examples.structural := ∅ ]} = Ok rows ->
    forall losses poes average_loss stddev_loss,
      AggregateLossCurveData Examples.structural Examples.hazard_output0
                             losses poes average_loss stddev_loss ∉ rows.
Proof.
  apply (@post_process_no_curve_without_losses Examples.scientific0
           Examples.rc0 Examples.hc0 {[ Examples.structural := ∅ ]}
           Examples.structural ∅ Examples.hazard_output0).
  - by_compute.
  - repeat constructor.
Defined.

(** C7: when the list of aggregate losses of a hazard output is not empty,
    that list holds, in the order of the realization's rupture ids, the loss
    of every rupture that has an entry in the event loss table and nothing
    for the others; the curve stored is the one the curve builder returns
    for that list with [tses] the number of stochastic event sets times the
    investigation time, and the [stddev_loss] stored is [numpy.std] of that
    same list.  The row is the last one the loop body creates for the loss
    type and hazard output, and it is among the rows of [post_process]
    whenever [post_process] returns. *)
Theorem post_process_aggregate_curve `{Scientific} rc hc
    (self : gmap string (gmap Z Qc)) loss_type
    (event_loss_table : gmap Z Qc) hazard_output losses poes :
  let rupture_ids := ses_rupture_ids (lt_realization hazard_output) in
  let aggregate_losses :=
    omap (fun rupture_id => event_loss_table !! rupture_id) rupture_ids in
  self !! loss_type = Some event_loss_table ->
  hazard_output ∈ hazard_outputs rc ->
  aggregate_losses <> [] ->
  scientific_event_based aggregate_losses
    (Qc_of_Z (ses_per_logic_tree_path hc) * hc_investigation_time hc)
    (rc_investigation_time rc) (loss_curve_resolution rc) = Ok (losses, poes) ->
  (exists inserted,
     post_process_one rc hc loss_type event_loss_table hazard_output =
     Ok (EventLoss loss_type hazard_output :: inserted ++
         [AggregateLossCurveData loss_type hazard_output losses poes
            (scientific_average_loss losses poes) (numpy_std aggregate_losses)])) /\
  forall rows, post_process rc hc self = Ok rows ->
    AggregateLossCurveData loss_type hazard_output losses poes
      (scientific_average_loss losses poes) (numpy_std aggregate_losses) ∈ rows.
Proof.
  intros rupture_ids aggregate_losses Hself Hho Hne Hcurve.
  assert (exists inserted,
     post_process_one rc hc loss_type event_loss_table hazard_output =
     Ok (EventLoss loss_type hazard_output :: inserted ++
         [AggregateLossCurveData loss_type hazard_output losses poes
            (scientific_average_loss losses poes) (numpy_std aggregate_losses)]))
    as [inserted Hone].
  { unfold post_process_one. simpl.
    rewrite aggregate_losses_of_omap. fold rupture_ids. fold aggregate_losses.
    destruct aggregate_losses as [|l ls] eqn:E; [done|].
    rewrite Hcurve. cbn [rbind]. by eexists. }
  split; [by exists inserted|].
  intros rows Hrows. unfold post_process in Hrows.
  apply elem_of_map_to_list in Hself.
  destruct (result_mapM_join_intro _ _ _ _ Hrows Hself) as (rows' & Hrows' & Hsub).
  simpl in Hrows'.
  destruct (result_mapM_join_intro _ _ _ _ Hrows' Hho) as (rows'' & Hone' & Hsub').
  apply Hsub, Hsub'. rewrite Hone in Hone'. injection Hone' as <-.
  apply elem_of_cons. right. apply elem_of_app. right. apply list_elem_of_here.
Qed.

Lemma post_process_aggregate_curve_witness :
  exists rows,
    @post_process Examples.scientific0 Examples.rc0 Examples.hc0
      {[ Examples.structural := {[ 1%Z := Q2Qc (1 # 2); 3%Z := 1 ]} ]} = Ok rows /\
    AggregateLossCurveData Examples.structural Examples.hazard_output0
      [Q2Qc (1 # 2); 1] [Q2Qc 250; Q2Qc 50]
      (@scientific_average_loss Examples.scientific0
         [Q2Qc (1 # 2); 1] [Q2Qc 250; Q2Qc 50])
      (@numpy_std Examples.scientific0
         (omap (fun rupture_id =>
                  ({[ 1%Z := Q2Qc (1 # 2); 3%Z := 1 ]} : gmap Z Qc) !! rupture_id)
               (@ses_rupture_ids Examples.scientific0
                  (lt_realization Examples.hazard_output0)))) ∈ rows.
Proof.
  destruct (@post_process Examples.scientific0 Examples.rc0 Examples.hc0
              {[ Examples.structural := {[ 1%Z := Q2Qc (1 # 2); 3%Z := 1 ]} ]})
    as [rows|e] eqn:E.
  - exists rows. split; [reflexivity|].
    apply (@post_process_aggregate_curve Examples.scientific0 Examples.rc0
             Examples.hc0 {[ Examples.structural := {[ 1%Z := Q2Qc (1 # 2); 3%Z := 1 ]} ]}
             Examples.structural {[ 1%Z := Q2Qc (1 # 2); 3%Z := 1 ]}
             Examples.hazard_output0 [Q2Qc (1 # 2); 1] [Q2Qc 250; Q2Qc 50]).
    + reflexivity.
    + apply list_elem_of_here.
    + by_compute.
    + by_compute.
    + exact E.
  - exfalso. vm_compute in E. discriminate E.
Defined.

(** ** Bin widths of zero (claim C9) *)

(** Without a validation, a zero bin width surfaces inside the
    disaggregation of the first rupture. *)
Lemma disaggregate_rupture_zero_width ruptures params site fraction rupture_id :
  is_Some (ruptures !! rupture_id) ->
  mag_bin_width params = 0 \/ distance_bin_width params = 0 \/
  coordinate_bin_width params = 0 ->
  disaggregate_rupture ruptures params site (fraction, rupture_id) = Raise NumericError.
Proof.
  intros [rupture Hr] Hzero. unfold disaggregate_rupture, SESRupture_get.
  rewrite Hr. cbn [rbind]. unfold py_div.
  destruct (decide (mag_bin_width params = 0)); [done|]. cbn [rbind].
  destruct (decide (distance_bin_width params = 0)); [done|]. cbn [rbind].
  destruct (decide (coordinate_bin_width params = 0)); [done|]. tauto.
Qed.

Lemma do_event_based_zero_width_raises :
  do_event_based Examples.ruptures0 Examples.params_zero_width
                 ([ {| hid := 1; output := Examples.output0 |} ], None)
  = ([], Raise NumericError).
Proof. by_compute. Qed.

(** C9: with the validation that the spec describes in front of the tasks, a
    configuration in which a bin width is zero is rejected by the
    validation: the calculation raises the validation error and no task is
    run, so that the division by zero of the disaggregation is not
    reached. *)
Theorem zero_bin_width_rejected_before_tasks ruptures params units :
  mag_bin_width params = 0 \/ distance_bin_width params = 0 \/
  coordinate_bin_width params = 0 ->
  validate_bin_widths params = Raise ValidationError /\
  run_calculation ruptures params units = Raise ValidationError.
Proof.
  intros Hzero. unfold run_calculation, validate_bin_widths.
  by rewrite decide_True.
Qed.

Lemma zero_bin_width_rejected_before_tasks_witness :
  validate_bin_widths Examples.params_zero_width = Raise ValidationError /\
  run_calculation Examples.ruptures0 Examples.params_zero_width
    [([ {| hid := 1; output := Examples.output0 |} ], None)] = Raise ValidationError.
Proof.
  apply (zero_bin_width_rejected_before_tasks Examples.ruptures0
           Examples.params_zero_width
           [([ {| hid := 1; output := Examples.output0 |} ], None)]).
  right. left. reflexivity.
Defined.

(** ** The hazard restore tool (claim C10) *)

Section hazard_restore_facts.
Context {DB : Type} `{Cursor DB}.

(** A loop over the file names that ends without exception has found and
    restored every file listed. *)
Lemma restore_files_Ok tf filenames (db db' : DB) :
  restore_files tf filenames db = (db', Ok ()) ->
  Forall (fun line =>
            exists f db1 db2 imported,
              tf !! ("hazard_calculation/" +:+ rstrip line) = Some f /\
              safe_restore f (strip_csv_gz (rstrip line)) db1 = (db2, Ok imported))
         filenames.
Proof.
  revert db. induction filenames as [|line rest IH]; intros db; simpl.
  - constructor.
  - destruct (tf !! ("hazard_calculation/" +:+ rstrip line)) as [f|] eqn:Ef; [|done].
    destruct (safe_restore f (strip_csv_gz (rstrip line)) db)
      as [db1 [imported|e]] eqn:Er; [|done].
    intros Hrest. constructor; [|by eapply IH].
    by exists f, db, db1, imported.
Qed.

End hazard_restore_facts.

(** The two outcomes on a small database and archive: every file restored
    and the import committed; a malformed id in the second file, after rows
    of both files were copied, and the transaction rolled back. *)
Lemma hazard_restore_commits_example :
  let outcome := @hazard_restore _ Examples.cursor0 Examples.conn0 Examples.tar_good in
  outcome.2 = Ok () /\ calls outcome.1 = [Commit] /\
  committed outcome.1 =
    {[ "site" := [Examples.line "1" "old"; Examples.line "2" "b"];
       "gmf" := [Examples.line "3" "c"] ]}.
Proof. cbv zeta. by_compute. Qed.

Lemma hazard_restore_rolls_back_example :
  let outcome := @hazard_restore _ Examples.cursor0 Examples.conn0 Examples.tar_bad in
  (@restore_all _ Examples.cursor0 Examples.tar_bad Examples.db0).1 <> Examples.db0 /\
  outcome.2 = Raise ValueError /\ calls outcome.1 = [Rollback] /\
  committed outcome.1 = Examples.db0 /\ working outcome.1 = Examples.db0.
Proof. cbv zeta. by_compute. Qed.

(** C10: [hazard_restore] ends in one of two ways.  If anything raised
    while the files were extracted or imported, the connection has been
    rolled back before the exception leaves: [rollback] is the call made,
    the committed database is the one from before the call and the open
    transaction is back at it.  Otherwise every file listed in
    [FILENAMES.txt] was found and restored without exception, and only then
    the import was committed: [commit] is the call made and the committed
    database is the one that the restore of all files produced. *)
Theorem hazard_restore_atomic {DB : Type} `{Cursor DB} (conn : Connection DB)
    (tf : gmap string (list string)) :
  match hazard_restore conn tf with
  | (conn', Raise e) =>
      calls conn' = calls conn ++ [Rollback] /\
      committed conn' = committed conn /\ working conn' = committed conn
  | (conn', Ok _) =>
      exists filenames db,
        tf !! "hazard_calculation/FILENAMES.txt" = Some filenames /\
        restore_files tf filenames (working conn) = (db, Ok ()) /\
        Forall (fun line =>
                  exists f db1 db2 imported,
                    tf !! ("hazard_calculation/" +:+ rstrip line) = Some f /\
                    safe_restore f (strip_csv_gz (rstrip line)) db1
                      = (db2, Ok imported)) filenames /\
        calls conn' = calls conn ++ [Commit] /\
        committed conn' = db /\ working conn' = db
  end.
Proof.
  unfold hazard_restore.
  destruct (restore_all tf (working conn)) as [db [[]|e]] eqn:Eall; simpl.
  - unfold restore_all in Eall.
    destruct (tf !! "hazard_calculation/FILENAMES.txt") as [filenames|] eqn:Ef;
      [|done].
    exists filenames, db. split_and!; try done. by eapply restore_files_Ok.
  - done.
Qed.

(** * Part III: further properties of the code *)

(** ** [task_completed]: missing loss types, untouched tables, sums *)

Section task_completed_more.
Implicit Types self A : gmap string (gmap Z Qc).

Lemma add_empty_r (s : gmap Z Qc) : Counter.positive s -> Counter.add s ∅ = s.
Proof.
intros Hs. apply map_eq. intros k. rewrite lookup_add, lookup_empty.
destruct (s !! k) as [x|] eqn:E; simpl; [|done].
rewrite Qcplus_0_r. apply decide_True_keep_positive. by apply (Hs k).
Qed.

Lemma task_completed_step_other A l self self' loss_type :
task_completed_step A l self = Ok self' -> l <> loss_type ->
self' !! loss_type = self !! loss_type.
Proof.
intros (a & _ & ->)%task_completed_step_Ok Hne. by apply lookup_insert_ne.
Qed.

Lemma task_completed_other loss_types A self self' loss_type :
task_completed loss_types A self = Ok self' -> loss_type ∉ loss_types ->
self' !! loss_type = self !! loss_type.
Proof.
revert self. induction loss_types as [|l rest IH]; intros self; simpl.
- by intros [= <-].
- destruct (task_completed_step A l self) as [s1|] eqn:E; [|done]. simpl.
  intros Htc [Hne Hnin]%not_elem_of_cons.
  rewrite (IH _ Htc Hnin). eapply task_completed_step_other; eauto.
Qed.

Lemma task_completed_keeps_positive loss_types A self self' loss_type :
Counter.positive (event_loss_table self loss_type) ->
task_completed loss_types A self = Ok self' ->
Counter.positive (event_loss_table self' loss_type).
Proof.
revert self. induction loss_types as [|l rest IH]; intros self Hpos; simpl.
- by intros [= <-].
- destruct (task_completed_step A l self) as [s1|] eqn:E; [|done]. simpl.
  apply IH. apply task_completed_step_Ok in E as (a & _ & ->).
  rewrite event_loss_table_insert. destruct (decide (l = loss_type)); [|done].
  apply add_positive.
Qed.

End task_completed_more.

Lemma task_completed_outcome loss_types (A self : gmap string (gmap Z Qc)) :
  match task_completed loss_types A self with
  | Ok _ => Forall (fun loss_type => is_Some (A !! loss_type)) loss_types
  | Raise e => e = KeyError /\ Exists (fun loss_type => A !! loss_type = None) loss_types
  end.
Proof.
  revert self. induction loss_types as [|l rest IH]; intros self; simpl.
  - constructor.
  - unfold task_completed_step.
    destruct (A !! l) as [a|] eqn:Ea; simpl.
    + specialize (IH (<[l:=Counter.add (event_loss_table self l) a]> self)).
      destruct (task_completed rest A _) as [s'|e].
      * constructor; [by rewrite Ea|done].
      * destruct IH as [-> IH]. split; [done|]. by apply Exists_cons_tl.
    + split; [done|]. by apply Exists_cons_hd.
Qed.

(** X1: [task_completed] returns exactly when the dictionary of the task has
    a table for every loss type of the calculation; otherwise what it raises
    is [KeyError], for a loss type without table. *)
Theorem task_completed_KeyError loss_types (A self : gmap string (gmap Z Qc)) :
  match task_completed loss_types A self with
  | Ok _ => Forall (fun loss_type => is_Some (A !! loss_type)) loss_types
  | Raise e => e = KeyError /\ Exists (fun loss_type => A !! loss_type = None) loss_types
  end.
Proof. apply task_completed_outcome. Qed.

(** X2: the table of a loss type that is not among the loss types of the
    calculation is left as it is, also when the task has a table for it. *)
Theorem task_completed_leaves_other_loss_types loss_types
    (A self self' : gmap string (gmap Z Qc)) loss_type :
  task_completed loss_types A self = Ok self' -> loss_type ∉ loss_types ->
  self' !! loss_type = self !! loss_type.
Proof. apply task_completed_other. Qed.

Lemma task_completed_leaves_other_loss_types_witness :
  ({[ "structural" := {[ 1%Z := 1 ]}; "contents" := {[ 5%Z := Q2Qc 3 ]} ]}
     : gmap string (gmap Z Qc)) !! "contents" =
  MoreExamples.running_contents !! "contents".
Proof.
  apply (task_completed_leaves_other_loss_types ["structural"]
           MoreExamples.task_two_loss_types MoreExamples.running_contents
           {[ "structural" := {[ 1%Z := 1 ]}; "contents" := {[ 5%Z := Q2Qc 3 ]} ]}
           "contents").
  - by_compute.
  - by_compute.
Defined.

Lemma task_completed_positive_at loss_types
    (A self self' : gmap string (gmap Z Qc)) loss_type :
  task_completed loss_types A self = Ok self' -> loss_type ∈ loss_types ->
  Counter.positive (event_loss_table self' loss_type).
Proof.
  revert self. induction loss_types as [|l rest IH]; intros self; simpl.
  - by intros _ ?%not_elem_of_nil.
  - destruct (task_completed_step A l self) as [s1|] eqn:E; [|done]. simpl.
    intros Htc [->|Hin]%elem_of_cons; [|by eapply IH].
    eapply task_completed_keeps_positive; [|done].
    apply task_completed_step_Ok in E as (a & _ & ->).
    rewrite event_loss_table_insert, decide_True by done. apply add_positive.
Qed.

(** X3: after a call that returns, the table of every loss type of the
    calculation holds strictly positive losses only, whatever the running
    table and the table of the task held before. *)
Theorem task_completed_result_positive loss_types
    (A self self' : gmap string (gmap Z Qc)) loss_type :
  task_completed loss_types A self = Ok self' -> loss_type ∈ loss_types ->
  Counter.positive (event_loss_table self' loss_type).
Proof. apply task_completed_positive_at. Qed.

Lemma task_completed_result_positive_witness :
  Counter.positive (event_loss_table {[ Examples.structural := {[ 1%Z := 1 ]} ]}
                                     Examples.structural).
Proof.
  apply (task_completed_result_positive [Examples.structural]
           (Examples.table_of (Q2Qc 2)) (Examples.table_of (-1))
           {[ Examples.structural := {[ 1%Z := 1 ]} ]} Examples.structural).
  - by_compute.
  - by_compute.
Defined.

(** X4: when no loss type is listed twice and the losses are non-negative,
    the loss accumulated for a rupture is the sum of the loss the running
    table had for it and of the loss of the task, a missing entry counting
    as zero. *)
Theorem task_completed_sums_losses loss_types
    (A self self' : gmap string (gmap Z Qc)) loss_type rupture_id :
  NoDup loss_types -> loss_type ∈ loss_types ->
  Counter.nonneg (event_loss_table self loss_type) ->
  Counter.nonneg (event_loss_table A loss_type) ->
  task_completed loss_types A self = Ok self' ->
  Counter.get (event_loss_table self' loss_type) rupture_id =
  Counter.get (event_loss_table self loss_type) rupture_id +
  Counter.get (event_loss_table A loss_type) rupture_id.
Proof.
  intros Hnodup. revert self.
  induction Hnodup as [|l rest Hnin Hnodup IH]; intros self; simpl.
  - by intros ?%not_elem_of_nil.
  - destruct (task_completed_step A l self) as [s1|] eqn:E; [|done]. simpl.
    intros Hin Hs HA Htc.
    pose proof E as (a & Ea & ->)%task_completed_step_Ok.
    destruct (decide (l = loss_type)) as [->|Hne].
    + unfold event_loss_table at 1.
      rewrite (task_completed_other _ _ _ _ _ Htc Hnin), lookup_insert_eq. simpl.
      unfold event_loss_table in HA at 1. rewrite Ea in HA. simpl in HA.
      rewrite get_add by done. unfold event_loss_table at 3. by rewrite Ea.
    + apply elem_of_cons in Hin as [?|Hin]; [congruence|].
      assert (event_loss_table (<[l:=Counter.add (event_loss_table self l) a]> self)
                               loss_type = event_loss_table self loss_type) as Hsame
        by by rewrite event_loss_table_insert, decide_False.
      rewrite (IH _ Hin) by (by rewrite ?Hsame). by rewrite Hsame.
Qed.

Lemma task_completed_sums_losses_witness :
  Counter.get (event_loss_table {[ Examples.structural := {[ 1%Z := Q2Qc 3 ]} ]}
                                Examples.structural) 1%Z =
  Counter.get (event_loss_table (Examples.table_of 1) Examples.structural) 1%Z +
  Counter.get (event_loss_table (Examples.table_of (Q2Qc 2)) Examples.structural) 1%Z.
Proof.
  apply (task_completed_sums_losses [Examples.structural]
           (Examples.table_of (Q2Qc 2)) (Examples.table_of 1)
           {[ Examples.structural := {[ 1%Z := Q2Qc 3 ]} ]} Examples.structural 1%Z).
  - repeat constructor. by_compute.
  - by_compute.
  - apply map_Forall_singleton. by vm_compute.
  - apply map_Forall_singleton. by vm_compute.
  - by_compute.
Defined.

(** X5: merging the empty counter, which is what a task without outputs
    returns, for every loss type of the calculation leaves every table of
    positive losses as it reads. *)
Theorem task_completed_empty_counters loss_types (A self : gmap string (gmap Z Qc)) :
  Forall (fun loss_type => A !! loss_type = Some ∅) loss_types ->
  tables_positive self ->
  exists self',
    task_completed loss_types A self = Ok self' /\
    forall loss_type, event_loss_table self' loss_type = event_loss_table self loss_type.
Proof.
  intros HA. revert self.
  induction HA as [|l rest Hl _ IH]; intros self Hs; simpl.
  - by exists self.
  - unfold task_completed_step. rewrite Hl. simpl.
    rewrite add_empty_r by by apply event_loss_table_positive.
    destruct (IH (<[l:=event_loss_table self l]> self)) as (self' & -> & Hread).
    { apply map_Forall_insert_2; [|done]. by apply event_loss_table_positive. }
    exists self'. split; [done|]. intros lt. rewrite Hread, event_loss_table_insert.
    by destruct (decide (l = lt)) as [->|].
Qed.

Lemma task_completed_empty_counters_witness :
  exists self',
    task_completed [Examples.structural] {[ Examples.structural := ∅ ]}
                   (Examples.table_of 1) = Ok self' /\
    forall loss_type,
      event_loss_table self' loss_type = event_loss_table (Examples.table_of 1) loss_type.
Proof.
  apply (task_completed_empty_counters [Examples.structural]
           {[ Examples.structural := ∅ ]} (Examples.table_of 1)).
  - repeat constructor.
  - apply map_Forall_singleton. apply map_Forall_singleton. by vm_compute.
Defined.

(** ** Bins: when the keys of the code are floor bins *)

Lemma Qc_div_nonneg (a b : Qc) : 0 <= a -> 0 < b -> 0 <= a / b.
Proof.
  unfold Qcle, Qclt, Qcdiv, Qcmult, Qcinv. simpl. rewrite !Qred_correct.
  intros Ha Hb. apply Qle_shift_div_l; [done|]. by rewrite Qmult_0_l.
Qed.

Lemma Qc_of_Z_nonneg (n : Z) : (0 <= n)%Z -> 0 <= Qc_of_Z n.
Proof. intros Hn. unfold Qcle, Qle. simpl. lia. Qed.

Lemma Qc_of_Z_pos (n : Z) : (0 < n)%Z -> 0 < Qc_of_Z n.
Proof. intros Hn. unfold Qclt, Qlt. simpl. lia. Qed.

Lemma Qfloor_nonneg (v : Qc) : 0 <= v -> (0 <= Qfloor v)%Z.
Proof.
  intros Hv. destruct v as [[n d] Hcanon]. unfold Qcle, Qle in Hv. simpl in *.
  apply Z.div_pos; lia.
Qed.

(** Flooring before a division by a positive integer does not change the
    floor of the quotient. *)
Lemma Qfloor_div_floor (v : Qc) (n : Z) :
  (0 < n)%Z ->
  Qfloor (Qc_of_Z (Qfloor v) / Qc_of_Z n)%Qc = Qfloor (v / Qc_of_Z n)%Qc.
Proof.
  intros Hn. unfold Qcdiv, Qcmult, Qcinv. simpl. rewrite !Qred_correct.
  destruct v as [[p q] Hcanon]. destruct n as [|n|n]; try lia. simpl.
  unfold Qfloor, Qmult, Qinv, inject_Z. simpl.
  rewrite !Z.mul_1_r, Pos.mul_1_l, Pos2Z.inj_mul.
  apply Z.div_div; lia.
Qed.

(** X10: for a closest point of non-negative longitude and latitude and a
    positive coordinate bin width, the coordinate key that the code emits
    holds the floor bins of longitude and latitude. *)
Theorem coordinate_key_is_floor_bin ruptures params site fraction rupture_id rupture :
  mag_bin_width params <> 0 -> distance_bin_width params <> 0 ->
  0 < coordinate_bin_width params ->
  ruptures !! rupture_id = Some rupture ->
  0 <= longitude (get_closest_points (surface rupture) site) ->
  0 <= latitude (get_closest_points (surface rupture) site) ->
  exists key_md,
    disaggregate_rupture ruptures params site (fraction, rupture_id) =
    Ok (key_md,
        format_Z (Qfloor (longitude (get_closest_points (surface rupture) site)
                          / coordinate_bin_width params)%Qc) +:+ "," +:+
        format_Z (Qfloor (latitude (get_closest_points (surface rupture) site)
                          / coordinate_bin_width params)%Qc),
        fraction).
Proof.
  intros Hm Hd Hc Hr Hlon Hlat.
  assert (coordinate_bin_width params <> 0) as Hc'.
  { intros Hz. rewrite Hz in Hc. by apply Qclt_not_eq in Hc. }
  rewrite (disaggregate_rupture_keys _ _ _ _ _ _ Hm Hd Hc' Hr). cbv zeta.
  rewrite (py_int_nonneg (longitude _ / _)) by by apply Qc_div_nonneg.
  rewrite (py_int_nonneg (latitude _ / _)) by by apply Qc_div_nonneg.
  by eexists.
Qed.

Lemma coordinate_key_is_floor_bin_witness :
  exists key_md,
    disaggregate_rupture MoreExamples.ruptures1 Examples.params0 Examples.site0
                         (Q2Qc (1 # 5), 9%Z) =
    Ok (key_md,
        format_Z (Qfloor (longitude (get_closest_points (surface MoreExamples.rupture1)
                                                        Examples.site0)
                          / coordinate_bin_width Examples.params0)%Qc) +:+ "," +:+
        format_Z (Qfloor (latitude (get_closest_points (surface MoreExamples.rupture1)
                                                       Examples.site0)
                          / coordinate_bin_width Examples.params0)%Qc),
        Q2Qc (1 # 5)).
Proof.
  apply (coordinate_key_is_floor_bin MoreExamples.ruptures1 Examples.params0
           Examples.site0 (Q2Qc (1 # 5)) 9%Z MoreExamples.rupture1).
  - by_compute.
  - by_compute.
  - by vm_compute.
  - reflexivity.
  - by vm_compute.
  - by vm_compute.
Defined.

(** X11: for a non-negative distance and a distance bin width that is a
    positive whole number, flooring the distance before the division is
    harmless: the magnitude-distance key that the code emits holds the
    floor bins of magnitude and distance. *)
Theorem magnitude_distance_key_is_floor_bin ruptures params site fraction
    rupture_id rupture (width : Z) :
  mag_bin_width params <> 0 ->
  distance_bin_width params = Qc_of_Z width -> (0 < width)%Z ->
  coordinate_bin_width params <> 0 ->
  ruptures !! rupture_id = Some rupture ->
  0 <= get_joyner_boore_distance (surface rupture) site ->
  exists key_c,
    disaggregate_rupture ruptures params site (fraction, rupture_id) =
    Ok (format_Z (Qfloor (magnitude rupture / mag_bin_width params)%Qc) +:+ "," +:+
        format_Z (Qfloor (get_joyner_boore_distance (surface rupture) site
                          / distance_bin_width params)%Qc),
        key_c, fraction).
Proof.
  intros Hm Hd Hwidth Hc Hr Hdist.
  assert (distance_bin_width params <> 0) as Hd'.
  { rewrite Hd. intros Hz. pose proof (Qc_of_Z_pos _ Hwidth) as Hpos.
    rewrite Hz in Hpos. by apply Qclt_not_eq in Hpos. }
  rewrite (disaggregate_rupture_keys _ _ _ _ _ _ Hm Hd' Hc Hr). cbv zeta.
  rewrite Hd. unfold numpy_floor.
  rewrite py_int_nonneg.
  - rewrite Qfloor_div_floor by done. by eexists.
  - apply Qc_div_nonneg; [|by apply Qc_of_Z_pos].
    by apply Qc_of_Z_nonneg, Qfloor_nonneg.
Qed.

Lemma magnitude_distance_key_is_floor_bin_witness :
  exists key_c,
    disaggregate_rupture MoreExamples.ruptures1 MoreExamples.params1 Examples.site0
                         (Q2Qc (1 # 5), 9%Z) =
    Ok (format_Z (Qfloor (magnitude MoreExamples.rupture1
                          / mag_bin_width MoreExamples.params1)%Qc) +:+ "," +:+
        format_Z (Qfloor (get_joyner_boore_distance (surface MoreExamples.rupture1)
                                                    Examples.site0
                          / distance_bin_width MoreExamples.params1)%Qc),
        key_c, Q2Qc (1 # 5)).
Proof.
  apply (magnitude_distance_key_is_floor_bin MoreExamples.ruptures1
           MoreExamples.params1 Examples.site0 (Q2Qc (1 # 5)) 9%Z
           MoreExamples.rupture1 10%Z).
  - by_compute.
  - reflexivity.
  - lia.
  - by_compute.
  - reflexivity.
  - by vm_compute.
Defined.

(** ** Disaggregation: skipped assets, empty rupture lists, missing ruptures *)

Section disaggregate_edges.
Variables (ruptures : gmap Z SESRupture) (params : CalcParams).

Lemma disaggregate_loop_unlisted rupture_ids pairs acc_assets acc_rows :
Forall (fun pair : Asset * list Qc => asset_site pair.1 ∉ sites_disagg params) pairs ->
disaggregate_loop ruptures params rupture_ids pairs acc_assets acc_rows
  = Ok (acc_assets, acc_rows).
Proof.
induction 1 as [|[asset losses] pairs Hhere _ IH]; simpl; [done|].
by rewrite decide_False.
Qed.

Lemma disaggregate_site_no_rupture_ids site loss_ratios :
disaggregate_site ruptures params [] site loss_ratios = Ok [].
Proof. unfold disaggregate_site. by rewrite zip_with_nil_r. Qed.

Lemma disaggregate_loop_no_rupture_ids pairs acc_assets :
exists assets',
  disaggregate_loop ruptures params [] pairs acc_assets [] = Ok (assets', []) /\
  (truthy acc_assets = true \/
   Exists (fun pair : Asset * list Qc => asset_site pair.1 ∈ sites_disagg params) pairs ->
   truthy assets' = true).
Proof.
revert acc_assets. induction pairs as [|[asset losses] pairs IH];
  intros acc_assets; simpl.
- exists acc_assets. split; [done|]. intros [?|?%Exists_nil]; done.
- destruct (decide (asset_site asset ∈ sites_disagg params)) as [Hin|Hnin].
  + rewrite disaggregate_site_no_rupture_ids. simpl.
    destruct (IH (Chain (iter_items acc_assets ++ [])))
      as (assets' & -> & Htruthy).
    exists assets'. split; [done|]. intros _. apply Htruthy. by left.
  + destruct (IH acc_assets) as (assets' & -> & Htruthy).
    exists assets'. split; [done|].
    intros [?|[?|?]%Exists_cons]; [by auto|done|by auto].
Qed.

Lemma result_mapM_raises {A B} (f : A -> result B) (l : list A) (e : exn) :
Forall (fun a => (exists b, f a = Ok b) \/ f a = Raise e) l ->
Exists (fun a => f a = Raise e) l ->
result_mapM f l = Raise e.
Proof.
induction 1 as [|a l Ha _ IH]; intros Hex.
- by apply Exists_nil in Hex.
- simpl. destruct Ha as [[b Hb]|Ha].
  + rewrite Hb. simpl. apply Exists_cons in Hex as [Hex|Hex]; [congruence|].
    by rewrite IH.
  + by rewrite Ha.
Qed.

End disaggregate_edges.

(** X6: when no asset is at a site to disaggregate, [disaggregate] reads no
    rupture and divides by no bin width: it returns the empty outputs
    whatever the stored ruptures, the rupture ids and the bin widths are. *)
Theorem disaggregate_skips_unlisted_assets ruptures outputs rupture_ids params :
  Forall (fun asset => asset_site asset ∉ sites_disagg params) (assets outputs) ->
  disaggregate ruptures outputs rupture_ids params =
  Ok {| assets_disagg := PyList []; magnitude_distance := [];
        coordinate := []; fractions := [] |}.
Proof.
  intros Hunlisted. unfold disaggregate.
  rewrite disaggregate_loop_unlisted; [done|].
  apply Forall_forall. intros [asset losses] Hin%elem_of_zip_l.
  rewrite Forall_forall in Hunlisted. by apply Hunlisted.
Qed.

Lemma disaggregate_skips_unlisted_assets_witness :
  disaggregate ∅ Examples.output0 [7%Z; 8%Z] MoreExamples.params_no_sites =
  Ok {| assets_disagg := PyList []; magnitude_distance := [];
        coordinate := []; fractions := [] |}.
Proof.
  apply (disaggregate_skips_unlisted_assets ∅ Examples.output0 [7%Z; 8%Z]
           MoreExamples.params_no_sites).
  repeat constructor; by_compute.
Defined.

Lemma disaggregate_no_rupture_ids_raises ruptures outputs params :
  Exists (fun pair : Asset * list Qc => asset_site pair.1 ∈ sites_disagg params)
         (zip (assets outputs) (loss_matrix outputs)) ->
  disaggregate ruptures outputs [] params = Raise ValueError.
Proof.
  intros Hlisted. unfold disaggregate.
  destruct (disaggregate_loop_no_rupture_ids ruptures params
              (zip (assets outputs) (loss_matrix outputs)) (PyList []))
    as (assets' & -> & Htruthy).
  cbn [rbind]. by rewrite Htruthy by by right.
Qed.

(** X7: when an asset with a loss row is at a site to disaggregate and the
    list of rupture ids is empty, no row is produced but the asset iterator
    is true, and [disaggregate] raises [ValueError] at the unpacking of the
    transposed matrix. *)
Theorem disaggregate_without_ruptures_raises ruptures outputs params :
  Exists (fun pair : Asset * list Qc => asset_site pair.1 ∈ sites_disagg params)
         (zip (assets outputs) (loss_matrix outputs)) ->
  disaggregate ruptures outputs [] params = Raise ValueError.
Proof. apply disaggregate_no_rupture_ids_raises. Qed.

Lemma disaggregate_without_ruptures_raises_witness :
  disaggregate Examples.ruptures0 Examples.output0 [] Examples.params0
    = Raise ValueError.
Proof.
  apply (disaggregate_without_ruptures_raises Examples.ruptures0 Examples.output0
           Examples.params0).
  apply Exists_cons_hd. by_compute.
Defined.

(** X8: with bin widths other than zero, [disaggregate_site] raises
    [DoesNotExist] as soon as one of the rupture ids that it pairs with a
    loss ratio is not the id of a stored rupture. *)
Theorem disaggregate_site_missing_rupture ruptures params rupture_ids site loss_ratios :
  mag_bin_width params <> 0 -> distance_bin_width params <> 0 ->
  coordinate_bin_width params <> 0 ->
  Exists (fun pair : Qc * Z => ruptures !! pair.2 = None) (zip loss_ratios rupture_ids) ->
  disaggregate_site ruptures params rupture_ids site loss_ratios = Raise DoesNotExist.
Proof.
  intros Hm Hd Hc Hmissing. unfold disaggregate_site.
  apply result_mapM_raises.
  - apply Forall_forall. intros [fraction rupture_id] _.
    destruct (ruptures !! rupture_id) as [rupture|] eqn:Hr.
    + left. eexists. by apply disaggregate_rupture_keys.
    + right. unfold disaggregate_rupture, SESRupture_get. by rewrite Hr.
  - eapply Exists_impl; [done|]. intros [fraction rupture_id] Hr. simpl in Hr.
    unfold disaggregate_rupture, SESRupture_get. by rewrite Hr.
Qed.

Lemma disaggregate_site_missing_rupture_witness :
  disaggregate_site Examples.ruptures0 Examples.params0 [7%Z; 5%Z] Examples.site0
                    Examples.losses0 = Raise DoesNotExist.
Proof.
  apply (disaggregate_site_missing_rupture Examples.ruptures0 Examples.params0
           [7%Z; 5%Z] Examples.site0 Examples.losses0).
  - by_compute.
  - by_compute.
  - by_compute.
  - apply Exists_cons_tl, Exists_cons_hd. reflexivity.
Defined.

(** X9: with a bin width of zero, [disaggregate_site] returns no rows as soon
    as there is a loss ratio and a rupture id to pair: it raises at the
    first pair, [DoesNotExist] for an unknown rupture and the numeric error
    otherwise. *)
Theorem disaggregate_site_zero_width_raises ruptures params rupture_ids site
    loss_ratios fraction rupture_id :
  mag_bin_width params = 0 \/ distance_bin_width params = 0 \/
  coordinate_bin_width params = 0 ->
  head loss_ratios = Some fraction -> head rupture_ids = Some rupture_id ->
  disaggregate_site ruptures params rupture_ids site loss_ratios =
  Raise (match ruptures !! rupture_id with
         | Some _ => NumericError
         | None => DoesNotExist
         end).
Proof.
  intros Hzero Hf Hr. unfold disaggregate_site.
  destruct loss_ratios as [|? loss_ratios]; [done|].
  destruct rupture_ids as [|? rupture_ids]; [done|].
  simpl in Hf, Hr. injection Hf as ->. injection Hr as ->.
  cbn [zip_with result_mapM].
  destruct (ruptures !! rupture_id) as [rupture|] eqn:Hrup.
  - rewrite disaggregate_rupture_zero_width; [done| |done]. by rewrite Hrup.
  - unfold disaggregate_rupture, SESRupture_get. by rewrite Hrup.
Qed.

Lemma disaggregate_site_zero_width_raises_witness :
  disaggregate_site Examples.ruptures0 Examples.params_zero_width [7%Z; 8%Z]
                    Examples.site0 Examples.losses0 =
  Raise (match Examples.ruptures0 !! 7%Z with
         | Some _ => NumericError
         | None => DoesNotExist
         end).
Proof.
  apply (disaggregate_site_zero_width_raises Examples.ruptures0
           Examples.params_zero_width [7%Z; 8%Z] Examples.site0 Examples.losses0
           (Q2Qc (1 # 5)) 7%Z).
  - right. left. reflexivity.
  - reflexivity.
  - reflexivity.
Defined.

(** ** Bin keys identify the pair of bins *)

Lemma string_of_uint_no_comma (d : Decimal.uint) :
  has_comma (NilEmpty.string_of_uint d) = false.
Proof. induction d; simpl; done. Qed.

Lemma format_Z_no_comma (n : Z) : has_comma (format_Z n) = false.
Proof.
  unfold format_Z, NilZero.string_of_int, NilZero.string_of_uint.
  destruct (Z.to_int n) as [d|d]; destruct d; simpl;
    try done; apply string_of_uint_no_comma.
Qed.

Lemma app_comma_inj (s1 s1' s2 s2' : string) :
  has_comma s1 = false -> has_comma s1' = false ->
  s1 +:+ "," +:+ s2 = s1' +:+ "," +:+ s2' -> s1 = s1' /\ s2 = s2'.
Proof.
  revert s1'. induction s1 as [|c s1 IH]; intros [|c' s1'] Hc Hc' Heq.
  - change (String (Ascii.ascii_of_nat 44) s2 = String (Ascii.ascii_of_nat 44) s2') in Heq.
    by injection Heq as ->.
  - change (String (Ascii.ascii_of_nat 44) s2 = String c' (s1' +:+ "," +:+ s2')) in Heq.
    injection Heq as <- _. by vm_compute in Hc'.
  - change (String c (s1 +:+ "," +:+ s2) = String (Ascii.ascii_of_nat 44) s2') in Heq.
    injection Heq as -> _. by vm_compute in Hc.
  - change (String c (s1 +:+ "," +:+ s2) = String c' (s1' +:+ "," +:+ s2')) in Heq.
    injection Heq as -> Heq. simpl in Hc, Hc'.
    apply orb_false_iff in Hc as [_ Hc]. apply orb_false_iff in Hc' as [_ Hc'].
    destruct (IH _ Hc Hc' Heq) as [-> ->]. done.
Qed.

Lemma format_Z_inj (a b : Z) : format_Z a = format_Z b -> a = b.
Proof.
  unfold format_Z. intros Heq. apply DecimalZ.to_int_inj.
  assert (forall n, NilZero.int_of_string (NilZero.string_of_int (Z.to_int n))
                    = Some (Z.to_int n)) as Hparse.
  { intros n. apply NilZero.isi; destruct n; simpl; try done;
      intros [= Hnil]; by apply DecimalPos.Unsigned.to_uint_nonnil in Hnil. }
  apply (f_equal NilZero.int_of_string) in Heq. rewrite !Hparse in Heq.
  by injection Heq.
Qed.

(** X12: two pairs of values are formatted to the same key exactly when
    their whole parts agree component by component: a key identifies its
    pair of bins. *)
Theorem format_d_d_same_key (a b c d : Qc) :
  format_d_d a b = format_d_d c d <-> py_int a = py_int c /\ py_int b = py_int d.
Proof.
  unfold format_d_d, format_d. split.
  - intros Heq. apply app_comma_inj in Heq as [Ha Hb];
      [|apply (format_Z_no_comma (py_int a))|apply (format_Z_no_comma (py_int c))].
    split; by apply format_Z_inj.
  - by intros [-> ->].
Qed.

(** ** The task body and the task: what is written and what is returned *)

(** Goals about the writes of a literal list of effects. *)
Ltac solve_effects :=
  repeat first [apply Forall_app_2 | apply Forall_cons_2 | apply Forall_nil_2];
  simpl; try done;
  try (intros Hfraction; simpl in Hfraction;
       first [destruct Hfraction | discriminate Hfraction]).

Section do_event_based_more.
Variables (ruptures : gmap Z SESRupture) (params : CalcParams).

Lemma save_individual_outputs_no_disagg hazard_output_id outputs :
Forall (fun e => ~ is_loss_fraction_write e)
       (save_individual_outputs hazard_output_id outputs None params).
Proof.
unfold save_individual_outputs. solve_effects.
destruct (insured_curves outputs); solve_effects.
Qed.

Lemma save_statistical_output_no_disagg stats :
Forall (fun e => ~ is_loss_fraction_write e) (save_statistical_output stats params).
Proof.
unfold save_statistical_output. solve_effects.
- apply Forall_fmap, Forall_true. intros quantile. solve_effects.
- destruct (mean_insured_curves stats); solve_effects.
Qed.

Lemma save_outputs_without_sites outputs :
sites_disagg params = [] ->
exists effects,
  save_outputs ruptures params outputs = (effects, Ok ()) /\
  Forall (fun e => ~ is_loss_fraction_write e) effects.
Proof.
intros Hsites.
induction outputs as [|out outputs (effects & IH & Hno)]; cbn [save_outputs].
- by exists [].
- rewrite Hsites, IH. eexists. split; [done|].
  apply Forall_app_2; [apply save_individual_outputs_no_disagg|done].
Qed.

(** The lengths of the arrays that [disaggregate] returns. *)
Lemma disaggregate_lengths outputs rupture_ids out :
rows_cover_ruptures params rupture_ids (zip (assets outputs) (loss_matrix outputs)) ->
disaggregate ruptures outputs rupture_ids params = Ok out ->
length (iter_items (assets_disagg out)) = length (fractions out) /\
length (magnitude_distance out) = length (fractions out) /\
length (coordinate out) = length (fractions out).
Proof.
intros Hcover Hout. unfold disaggregate in Hout.
destruct (disaggregate_loop ruptures params rupture_ids
            (zip (assets outputs) (loss_matrix outputs)) (PyList []) [])
  as [[assets' rows']|] eqn:Eloop; [|done]. cbn [rbind] in Hout.
destruct (disaggregate_loop_rows _ _ _ _ _ _ _ _ Hcover Eloop)
  as (tagged & _ & Hitems & -> & _).
simpl in Hitems.
destruct (truthy assets') eqn:Etruthy.
- destruct tagged as [|row tagged]; [done|].
  cbn [rbind unzip_rows app fmap list_fmap] in Hout.
  injection Hout as <-. simpl. rewrite Hitems. simpl.
  by rewrite !length_fmap.
- injection Hout as <-. simpl.
  destruct assets' as [[|? ?]|?]; done.
Qed.

Lemma save_individual_outputs_aligned hazard_output_id outputs disagg_outputs :
match disagg_outputs with
| Some d =>
    length (iter_items (assets_disagg d)) = length (fractions d) /\
    length (magnitude_distance d) = length (fractions d) /\
    length (coordinate d) = length (fractions d)
| None => True
end ->
Forall aligned_write
       (save_individual_outputs hazard_output_id outputs disagg_outputs params).
Proof.
intros Hd. unfold save_individual_outputs.
destruct disagg_outputs as [d|], (insured_curves outputs); solve_effects;
  destruct Hd as (Ha & Hm & Hc); split; congruence.
Qed.

Lemma save_statistical_output_aligned stats :
Forall aligned_write (save_statistical_output stats params).
Proof.
unfold save_statistical_output. solve_effects.
- apply Forall_fmap, Forall_true. intros quantile. solve_effects.
- destruct (mean_insured_curves stats); solve_effects.
Qed.

Lemma save_outputs_aligned outputs effects outcome :
Forall (fun out =>
          rows_cover_ruptures params (keys (output_event_loss_table (output out)))
            (zip (assets (output out)) (loss_matrix (output out)))) outputs ->
save_outputs ruptures params outputs = (effects, outcome) ->
Forall aligned_write effects.
Proof.
intros Hcover. revert effects outcome.
induction Hcover as [|out outputs Hout _ IH]; intros effects outcome;
  cbn [save_outputs].
- intros [= <- _]. constructor.
- destruct (sites_disagg params) as [|site sites] eqn:Esites.
  + destruct (save_outputs ruptures params outputs) as [effects' r] eqn:Erest.
    intros Heq%(f_equal fst). cbn [fst] in Heq. subst effects.
    apply Forall_app_2; [|by eapply IH].
    by apply save_individual_outputs_aligned.
  + destruct (disaggregate ruptures (output out)
                (keys (output_event_loss_table (output out))) params)
      as [d|e] eqn:Ed; cbn [rbind].
    * destruct (save_outputs ruptures params outputs) as [effects' r] eqn:Erest.
      intros Heq%(f_equal fst). cbn [fst] in Heq. subst effects.
    apply Forall_app_2; [|by eapply IH].
      apply save_individual_outputs_aligned.
      by eapply disaggregate_lengths.
    * intros [= <- _]. constructor.
Qed.

End do_event_based_more.

(** X13: without a site to disaggregate, [do_event_based] on outputs that are
    not empty reads no rupture and cannot fail: it returns the event loss
    table of the statistics when there are statistics and the table of the
    first output otherwise, the tables of the other outputs playing no
    part, and none of its writes is a write of loss fractions. *)
Theorem do_event_based_without_sites ruptures params first rest stats :
  sites_disagg params = [] ->
  exists effects,
    do_event_based ruptures params (first :: rest, stats) =
    (effects,
     Ok (match stats with
         | Some stats => stats_event_loss_table stats
         | None => output_event_loss_table (output first)
         end)) /\
    Forall (fun e => ~ is_loss_fraction_write e) effects.
Proof.
  intros Hsites. unfold do_event_based.
  destruct (save_outputs_without_sites ruptures params (first :: rest) Hsites)
    as (effects & -> & Hno).
  destruct stats as [stats|]; eexists; (split; [done|]); [|done].
  apply Forall_app_2; [done|apply save_statistical_output_no_disagg].
Qed.

Lemma do_event_based_without_sites_witness :
  exists effects,
    do_event_based ∅ MoreExamples.params_no_sites
                   ([MoreExamples.unit_output0], None) =
    (effects, Ok (output_event_loss_table (output MoreExamples.unit_output0))) /\
    Forall (fun e => ~ is_loss_fraction_write e) effects.
Proof.
  apply (do_event_based_without_sites ∅ MoreExamples.params_no_sites
           MoreExamples.unit_output0 [] None).
  reflexivity.
Defined.

(** X14: when every listed asset of every output has a loss ratio for each
    key of the event loss table of that output, every write of loss
    fractions that [do_event_based] makes, also before an exception, hands
    over as many assets as keys and as fractions. *)
Theorem do_event_based_fraction_writes_aligned ruptures params outputs stats
    effects outcome :
  Forall (fun out =>
            rows_cover_ruptures params (keys (output_event_loss_table (output out)))
              (zip (assets (output out)) (loss_matrix (output out)))) outputs ->
  do_event_based ruptures params (outputs, stats) = (effects, outcome) ->
  Forall aligned_write effects.
Proof.
  intros Hcover. unfold do_event_based.
  destruct outputs as [|first rest].
  - intros [= <- _]. repeat constructor.
  - destruct (save_outputs ruptures params (first :: rest)) as [effects' [[]|e]] eqn:E.
    + pose proof (save_outputs_aligned _ _ _ _ _ Hcover E) as Haligned.
      destruct stats as [stats|]; intros [= <- _]; [|done].
      apply Forall_app_2; [done|apply save_statistical_output_aligned].
    + intros [= <- _]. by eapply save_outputs_aligned.
Qed.

Lemma do_event_based_fraction_writes_aligned_witness :
  Forall aligned_write
         (do_event_based Examples.ruptures0 Examples.params0
                         ([MoreExamples.unit_output0], None)).1.
Proof.
  destruct (do_event_based Examples.ruptures0 Examples.params0
                           ([MoreExamples.unit_output0], None))
    as [effects outcome] eqn:E.
  apply (do_event_based_fraction_writes_aligned Examples.ruptures0 Examples.params0
           [MoreExamples.unit_output0] None effects outcome).
  - repeat constructor; simpl; intros; vm_compute; lia.
  - exact E.
Defined.

(** ** The task [event_based] and the merge of its result *)

Section event_based_more.
Variables (ruptures : gmap Z SESRupture) (params : CalcParams).
Implicit Types units : list (string * (list UnitOutput * option StatisticalOutput)).
Implicit Types acc tables : gmap string (gmap Z Qc).

Lemma event_based_loop_cons_Ok loss_type unit_result units acc effects tables :
event_based_loop ruptures params ((loss_type, unit_result) :: units) acc
  = (effects, Ok tables) ->
exists effects1 table effects2,
  do_event_based ruptures params unit_result = (effects1, Ok table) /\
  event_based_loop ruptures params units (<[loss_type := table]> acc)
    = (effects2, Ok tables).
Proof.
cbn [event_based_loop].
destruct (do_event_based ruptures params unit_result) as [effects1 [table|e]];
  [|done].
destruct (event_based_loop ruptures params units (<[loss_type:=table]> acc))
  as [effects2 outcome] eqn:Erest.
intros [= _ ->]. by exists effects1, table, effects2.
Qed.

Lemma event_based_loop_dom units acc effects tables :
event_based_loop ruptures params units acc = (effects, Ok tables) ->
dom tables = dom acc ∪ list_to_set units.*1.
Proof.
revert acc effects. induction units as [|[loss_type unit_result] units IH];
  intros acc effects.
- intros [= _ <-]. set_solver.
- intros (effects1 & table & effects2 & _ & Hrest)%event_based_loop_cons_Ok.
  rewrite (IH _ _ Hrest), dom_insert_L. set_solver.
Qed.

Lemma event_based_loop_other units acc effects tables loss_type :
event_based_loop ruptures params units acc = (effects, Ok tables) ->
loss_type ∉ units.*1 -> tables !! loss_type = acc !! loss_type.
Proof.
revert acc effects. induction units as [|[loss_type' unit_result] units IH];
  intros acc effects.
- by intros [= _ <-].
- intros (effects1 & table & effects2 & _ & Hrest)%event_based_loop_cons_Ok.
  intros [Hne Hnin]%not_elem_of_cons.
  rewrite (IH _ _ Hrest Hnin). by apply lookup_insert_ne.
Qed.

Lemma event_based_loop_app_Ok units1 units2 acc effects tables :
event_based_loop ruptures params (units1 ++ units2) acc = (effects, Ok tables) ->
exists effects1 tables1 effects2,
  event_based_loop ruptures params units1 acc = (effects1, Ok tables1) /\
  event_based_loop ruptures params units2 tables1 = (effects2, Ok tables).
Proof.
revert acc effects. induction units1 as [|[loss_type unit_result] units1 IH];
  intros acc effects.
- intros Hloop. by exists [], acc, effects.
- rewrite <- app_comm_cons.
  intros (effects1 & table & effects2 & Hunit & Hrest)%event_based_loop_cons_Ok.
  destruct (IH _ _ Hrest) as (effects1' & tables1 & effects2' & H1 & H2).
  exists (effects1 ++ effects1'), tables1, effects2'. split; [|done].
  cbn [event_based_loop]. by rewrite Hunit, H1.
Qed.

End event_based_more.

(** X15: the dictionary that [event_based] returns has a table for the loss
    type of every unit, and for nothing else. *)
Theorem event_based_tables_of_units ruptures params
    (units : list (string * (list UnitOutput * option StatisticalOutput)))
    effects (tables : gmap string (gmap Z Qc)) :
  event_based ruptures params units = (effects, Ok tables) ->
  dom tables = list_to_set units.*1.
Proof.
  intros Hloop%event_based_loop_dom. rewrite Hloop. set_solver.
Qed.

Lemma event_based_tables_of_units_witness :
  dom ({[ Examples.structural := ∅ ]} : gmap string (gmap Z Qc)) =
  list_to_set [(Examples.structural, (@nil UnitOutput, @None StatisticalOutput))].*1.
Proof.
  apply (event_based_tables_of_units ∅ Examples.params0
           [(Examples.structural, ([], None))]
           [LogInfo "Exit from task as no asset could be processed"]
           {[ Examples.structural := ∅ ]}).
  by_compute.
Defined.

(** X16: when several units have the same loss type, the table returned for
    that loss type is the one of the last of them; the tables of the units
    before it are overwritten, not merged. *)
Theorem event_based_last_unit_wins ruptures params
    (before after : list (string * (list UnitOutput * option StatisticalOutput)))
    loss_type unit_result effects (tables : gmap string (gmap Z Qc)) :
  loss_type ∉ after.*1 ->
  event_based ruptures params (before ++ (loss_type, unit_result) :: after)
    = (effects, Ok tables) ->
  exists unit_effects table,
    do_event_based ruptures params unit_result = (unit_effects, Ok table) /\
    tables !! loss_type = Some table.
Proof.
  intros Hnin (effects1 & tables1 & effects2 & _ & Hrest)%event_based_loop_app_Ok.
  apply event_based_loop_cons_Ok in Hrest
    as (unit_effects & table & effects3 & Hunit & Hafter).
  exists unit_effects, table. split; [done|].
  rewrite (event_based_loop_other _ _ _ _ _ _ _ Hafter Hnin).
  apply lookup_insert_eq.
Qed.

Lemma event_based_last_unit_wins_witness :
  exists unit_effects table,
    do_event_based ∅ MoreExamples.params_no_sites ([], None)
      = (unit_effects, Ok table) /\
    ({[ Examples.structural := ∅ ]} : gmap string (gmap Z Qc))
      !! Examples.structural = Some table.
Proof.
  apply (event_based_last_unit_wins ∅ MoreExamples.params_no_sites
           [(Examples.structural, ([MoreExamples.unit_output0], None))] []
           Examples.structural ([], None)
           (save_individual_outputs (Some 1%Z) Examples.output0 None
                                    MoreExamples.params_no_sites ++
            [LogInfo "Exit from task as no asset could be processed"])
           {[ Examples.structural := ∅ ]}).
  - by_compute.
  - by_compute.
Defined.

(** X17: merging the dictionary that [event_based] returned: [task_completed]
    returns when every loss type of the calculation is the loss type of a
    unit of the task, and raises [KeyError] when one is not. *)
Theorem task_completed_after_event_based ruptures params
    (units : list (string * (list UnitOutput * option StatisticalOutput)))
    effects (tables self : gmap string (gmap Z Qc)) loss_types :
  event_based ruptures params units = (effects, Ok tables) ->
  match task_completed loss_types tables self with
  | Ok _ => Forall (fun loss_type => loss_type ∈ units.*1) loss_types
  | Raise e => e = KeyError /\ Exists (fun loss_type => loss_type ∉ units.*1) loss_types
  end.
Proof.
  intros Hdom%event_based_loop_dom.
  assert (forall loss_type, is_Some (tables !! loss_type) <-> loss_type ∈ units.*1)
    as Hkeys.
  { intros lt. rewrite <- elem_of_dom, Hdom. set_solver. }
  pose proof (task_completed_outcome loss_types tables self) as Houtcome.
  destruct (task_completed loss_types tables self) as [self'|e].
  - eapply Forall_impl; [done|]. intros lt. apply Hkeys.
  - destruct Houtcome as [-> Hex]. split; [done|].
    eapply Exists_impl; [done|]. intros lt Hnone. simpl in Hnone.
    rewrite <- Hkeys, Hnone. by intros [? ?].
Qed.

Lemma task_completed_after_event_based_witness :
  match task_completed ["contents"] {[ Examples.structural := ∅ ]} ∅ with
  | Ok _ =>
      Forall (fun loss_type =>
                loss_type ∈ [(Examples.structural,
                              (@nil UnitOutput, @None StatisticalOutput))].*1)
             ["contents"]
  | Raise e =>
      e = KeyError /\
      Exists (fun loss_type =>
                loss_type ∉ [(Examples.structural,
                              (@nil UnitOutput, @None StatisticalOutput))].*1)
             ["contents"]
  end.
Proof.
  apply (task_completed_after_event_based ∅ Examples.params0
           [(Examples.structural, ([], None))]
           [LogInfo "Exit from task as no asset could be processed"]
           {[ Examples.structural := ∅ ]} ∅ ["contents"]).
  by_compute.
Defined.

(** ** Post processing: the rows written *)

Section post_process_more.
Context `{Scientific}.
Variables (rc : RiskCalculation) (hc : HazardCalculation).

Lemma post_process_one_rows loss_type event_loss_table hazard_output rows :
post_process_one rc hc loss_type event_loss_table hazard_output = Ok rows ->
exists curve,
  rows = EventLoss loss_type hazard_output ::
         map (fun rupture_id =>
                EventLossData loss_type hazard_output rupture_id
                              (Counter.get event_loss_table rupture_id))
             (filter (recorded event_loss_table)
                     (ses_rupture_ids (lt_realization hazard_output))) ++ curve /\
  Forall (fun row => exists losses poes average_loss stddev_loss,
              row = AggregateLossCurveData loss_type hazard_output losses poes
                                           average_loss stddev_loss) curve.
Proof.
unfold post_process_one. simpl.
destruct (aggregate_losses_of event_loss_table
            (ses_rupture_ids (lt_realization hazard_output))) as [|l ls].
- intros [= <-]. exists []. by rewrite app_nil_r.
- destruct (scientific_event_based _ _ _ _) as [[ls' ps']|]; [|done].
  cbn [rbind]. intros [= <-]. eexists. split; [done|].
  repeat constructor. by eexists _, _, _, _.
Qed.

Lemma aggregate_losses_of_positive (event_loss_table : gmap Z Qc) rupture_ids :
Counter.positive event_loss_table ->
Forall (fun loss => 0 < loss) (aggregate_losses_of event_loss_table rupture_ids).
Proof.
intros Hpos. rewrite aggregate_losses_of_omap. apply Forall_forall.
intros loss (rupture_id & _ & Hloss)%list_elem_of_omap. by apply (Hpos rupture_id).
Qed.

End post_process_more.



(** X19: when [post_process] returns, it has created an event loss row for
    every loss type that has a table, with every hazard output of the
    calculation, also where no rupture has a loss. *)
Theorem post_process_event_loss_rows `{Scientific} rc hc
    (self : gmap string (gmap Z Qc)) rows loss_type event_loss_table hazard_output :
  post_process rc hc self = Ok rows ->
  self !! loss_type = Some event_loss_table ->
  hazard_output ∈ hazard_outputs rc ->
  EventLoss loss_type hazard_output ∈ rows.
Proof.
  intros Hrows Hself Hho. unfold post_process in Hrows.
  apply elem_of_map_to_list in Hself.
  destruct (result_mapM_join_intro _ _ _ _ Hrows Hself) as (rows' & Hrows' & Hsub).
  simpl in Hrows'.
  destruct (result_mapM_join_intro _ _ _ _ Hrows' Hho) as (rows'' & Hone & Hsub').
  apply Hsub, Hsub'.
  apply post_process_one_rows in Hone as (curve & -> & _). apply elem_of_cons. by left.
Qed.

Lemma post_process_event_loss_rows_witness :
  exists rows,
    @post_process Examples.scientific0 Examples.rc0 Examples.hc0
                  {[ Examples.structural := ∅ ]} = Ok rows /\
    EventLoss Examples.structural Examples.hazard_output0 ∈ rows.
Proof.
  destruct (@post_process Examples.scientific0 Examples.rc0 Examples.hc0
              {[ Examples.structural := ∅ ]}) as [rows|e] eqn:E.
  - exists rows. split; [reflexivity|].
    apply (@post_process_event_loss_rows Examples.scientific0 Examples.rc0
             Examples.hc0 {[ Examples.structural := ∅ ]} rows
             Examples.structural ∅ Examples.hazard_output0).
    + exact E.
    + reflexivity.
    + apply list_elem_of_here.
  - exfalso. vm_compute in E. discriminate E.
Defined.

(** X20: after a [task_completed] that returns, every loss that post
    processing hands to the curve builder for a loss type of the
    calculation is strictly positive: a rupture whose accumulated loss is
    zero has no entry, so it is skipped. *)
Theorem accumulated_aggregate_losses_positive loss_types
    (A self self' : gmap string (gmap Z Qc)) loss_type rupture_ids :
  task_completed loss_types A self = Ok self' -> loss_type ∈ loss_types ->
  Forall (fun loss => 0 < loss)
         (aggregate_losses_of (event_loss_table self' loss_type) rupture_ids).
Proof.
  intros Htc Hin. apply aggregate_losses_of_positive.
  by eapply task_completed_positive_at.
Qed.

Lemma accumulated_aggregate_losses_positive_witness :
  Forall (fun loss => 0 < loss)
         (aggregate_losses_of
            (event_loss_table {[ Examples.structural := {[ 1%Z := Q2Qc 3 ]} ]}
                              Examples.structural)
            [1%Z; 2%Z; 3%Z]).
Proof.
  apply (accumulated_aggregate_losses_positive [Examples.structural]
           (Examples.table_of (Q2Qc 2)) (Examples.table_of 1)
           {[ Examples.structural := {[ 1%Z := Q2Qc 3 ]} ]}
           Examples.structural [1%Z; 2%Z; 3%Z]).
  - by_compute.
  - by_compute.
Defined.

(** ** The restore tool: malformed ids, counts, short files, missing files *)

Section safe_restore_more.
Context {DB : Type} `{Cursor DB}.

Lemma restore_lines_malformed tablename ids gzfile i s imported (db : DB) :
Exists (fun line => line_id line = None) gzfile ->
exists e, (restore_lines tablename ids gzfile i s imported db).2 = Raise e.
Proof.
intros Hbad. revert i s imported db.
induction gzfile as [|line rest IH]; intros i s imported db.
- by apply Exists_nil in Hbad.
- cbn [restore_lines]. unfold line_id in Hbad, IH.
  destruct (int_of_string (first_field line)) as [id_|] eqn:Eid; [|by eexists].
  apply Exists_cons in Hbad as [Hbad|Hbad]; [congruence|].
  destruct (decide (id_ ∈ ids)); cbn zeta beta iota;
    destruct (decide ((i mod BLOCKSIZE)%Z = 0%Z)); try by apply IH.
  all: destruct (copy_from _ tablename db); [by apply IH|by eexists].
Qed.

Lemma filter_is_new_cons ids line rest :
filter (is_new ids) (line :: rest) =
match line_id line with
| Some id_ => if decide (id_ ∈ ids) then filter (is_new ids) rest
              else line :: filter (is_new ids) rest
| None => filter (is_new ids) rest
end.
Proof.
rewrite filter_cons.
destruct (decide (is_new ids line)) as [Hnew|Hnew]; unfold is_new in Hnew;
  destruct (line_id line) as [id_|]; try done.
- by rewrite decide_False.
- rewrite decide_True; [done|]. by apply dec_stable.
Qed.

Lemma restore_lines_count tablename ids gzfile i s imported (db db' : DB) s' n :
restore_lines tablename ids gzfile i s imported db = (db', s', Ok n) ->
n = (imported + Z.of_nat (length (filter (is_new ids) gzfile)))%Z.
Proof.
revert i s imported db.
induction gzfile as [|line rest IH]; intros i s imported db.
- intros [= _ _ <-]. simpl. lia.
- cbn [restore_lines]. rewrite filter_is_new_cons. unfold line_id.
  destruct (int_of_string (first_field line)) as [id_|]; [|done].
  destruct (decide (id_ ∈ ids)); cbn zeta beta iota;
    destruct (decide ((i mod BLOCKSIZE)%Z = 0%Z)).
  all: try (destruct (copy_from _ tablename db); [|done]).
  all: intros Hrest%IH; rewrite Hrest; simpl; lia.
Qed.

Lemma restore_lines_short tablename ids gzfile i s imported (db : DB) :
(1 <= i)%Z -> (i + Z.of_nat (length gzfile) <= BLOCKSIZE)%Z ->
Forall (fun line => is_Some (line_id line)) gzfile ->
restore_lines tablename ids gzfile i s imported db =
(db, s ++ filter (is_new ids) gzfile,
 Ok (imported + Z.of_nat (length (filter (is_new ids) gzfile)))%Z).
Proof.
intros Hi Hlen Hids. revert i s imported Hi Hlen.
induction Hids as [|line rest [id_ Hid] _ IH]; intros i s imported Hi Hlen.
- simpl. by rewrite app_nil_r, Z.add_0_r.
- cbn [restore_lines]. rewrite filter_is_new_cons. unfold line_id in *.
  rewrite Hid. simpl length in Hlen.
  assert ((i mod BLOCKSIZE)%Z <> 0%Z) as Hmod.
  { rewrite Z.mod_small; unfold BLOCKSIZE in *; lia. }
  destruct (decide (id_ ∈ ids)); cbn zeta beta iota;
    rewrite (decide_False _ _ Hmod); rewrite IH by lia.
  + done.
  + rewrite <- app_assoc. simpl. do 2 f_equal. lia.
Qed.

End safe_restore_more.

(** X21: a file with a line whose id cannot be read as a number is never
    restored silently: [safe_restore] raises, whatever the cursor does. *)
Theorem safe_restore_malformed_id {DB : Type} `{Cursor DB} gzfile tablename (db : DB) :
  Exists (fun line => line_id line = None) gzfile ->
  exists e, (safe_restore gzfile tablename db).2 = Raise e.
Proof.
  intros Hbad. unfold safe_restore.
  destruct (select_ids tablename db) as [ids|e]; [|by eexists].
  destruct (restore_lines_malformed tablename ids gzfile 1 [] 0 db Hbad) as [e He].
  destruct (restore_lines tablename ids gzfile 1 [] 0 db) as [[db1 s] outcome].
  simpl in He. subst outcome.
  destruct (copy_from s tablename db1); by eexists.
Qed.

Lemma safe_restore_malformed_id_witness :
  exists e,
    (@safe_restore _ Examples.cursor0
       [Examples.line "3" "c"; Examples.line "x" "d"] "gmf" Examples.db0).2 = Raise e.
Proof.
  apply (@safe_restore_malformed_id _ Examples.cursor0
           [Examples.line "3" "c"; Examples.line "x" "d"] "gmf" Examples.db0).
  apply Exists_cons_tl, Exists_cons_hd. reflexivity.
Defined.

(** X22: the number that [safe_restore] returns is the number of lines of
    the file whose id was not among the ids that the table had when the
    restore began. *)
Theorem safe_restore_imported_count {DB : Type} `{Cursor DB} gzfile tablename
    (db db' : DB) imported :
  safe_restore gzfile tablename db = (db', Ok imported) ->
  exists ids,
    select_ids tablename db = Ok ids /\
    imported = Z.of_nat (length (filter (is_new ids) gzfile)).
Proof.
  unfold safe_restore.
  destruct (select_ids tablename db) as [ids|e]; [|done].
  destruct (restore_lines tablename ids gzfile 1 [] 0 db)
    as [[db1 s] outcome] eqn:Elines.
  destruct (copy_from s tablename db1); [|done].
  intros [= _ ->]. exists ids. split; [done|].
  by rewrite (restore_lines_count _ _ _ _ _ _ _ _ _ _ Elines).
Qed.

Lemma safe_restore_imported_count_witness :
  exists ids,
    @select_ids _ Examples.cursor0 "site" Examples.db0 = Ok ids /\
    1%Z = Z.of_nat (length (filter (@is_new _ Examples.cursor0 ids)
                                   [Examples.line "1" "a"; Examples.line "2" "b"])).
Proof.
  apply (@safe_restore_imported_count _ Examples.cursor0
           [Examples.line "1" "a"; Examples.line "2" "b"] "site" Examples.db0
           {[ "site" := [Examples.line "1" "old"; Examples.line "2" "b"];
              "gmf" := [] ]} 1%Z).
  by_compute.
Defined.

(** X23: a file of fewer than [BLOCKSIZE] lines, all with a readable id, is
    restored by one [copy_from], made by the [finally] clause, of exactly
    the lines whose id is not yet in the table, in their order; what that
    call raises is what [safe_restore] raises. *)
Theorem safe_restore_short_file {DB : Type} `{Cursor DB} gzfile tablename (db : DB) ids :
  (Z.of_nat (length gzfile) < BLOCKSIZE)%Z ->
  Forall (fun line => is_Some (line_id line)) gzfile ->
  select_ids tablename db = Ok ids ->
  safe_restore gzfile tablename db =
  match copy_from (filter (is_new ids) gzfile) tablename db with
  | Ok db' => (db', Ok (Z.of_nat (length (filter (is_new ids) gzfile))))
  | Raise e => (db, Raise e)
  end.
Proof.
  intros Hlen Hids Hselect. unfold safe_restore. rewrite Hselect.
  rewrite restore_lines_short by (done || lia). simpl.
  by destruct (copy_from _ tablename db).
Qed.

Lemma safe_restore_short_file_witness :
  @safe_restore _ Examples.cursor0
     [Examples.line "1" "a"; Examples.line "2" "b"] "site" Examples.db0 =
  match @copy_from _ Examples.cursor0
          (filter (@is_new _ Examples.cursor0 [1%Z])
                  [Examples.line "1" "a"; Examples.line "2" "b"])
          "site" Examples.db0 with
  | Ok db' =>
      (db', Ok (Z.of_nat (length (filter (@is_new _ Examples.cursor0 [1%Z])
                                         [Examples.line "1" "a"; Examples.line "2" "b"]))))
  | Raise e => (Examples.db0, Raise e)
  end.
Proof.
  apply (@safe_restore_short_file _ Examples.cursor0
           [Examples.line "1" "a"; Examples.line "2" "b"] "site" Examples.db0 [1%Z]).
  - by vm_compute.
  - repeat constructor; by eexists.
  - reflexivity.
Defined.

Section hazard_restore_more.
Context {DB : Type} `{Cursor DB}.

Lemma restore_files_missing tf filenames (db : DB) :
Exists (fun line => tf !! ("hazard_calculation/" +:+ rstrip line) = None) filenames ->
exists db' e, restore_files tf filenames db = (db', Raise e).
Proof.
intros Hmissing. revert db.
induction filenames as [|line rest IH]; intros db.
- by apply Exists_nil in Hmissing.
- cbn [restore_files].
  destruct (tf !! ("hazard_calculation/" +:+ rstrip line)) as [f|] eqn:Ef;
    [|by eexists _, _].
  apply Exists_cons in Hmissing as [?|Hmissing]; [congruence|].
  destruct (safe_restore f (strip_csv_gz (rstrip line)) db) as [db1 [imported|e]].
  + by apply IH.
  + by eexists _, _.
Qed.

End hazard_restore_more.

(** X24: an archive without [FILENAMES.txt], or without one of the files
    that [FILENAMES.txt] lists, is never committed: [hazard_restore] raises
    and leaves the connection rolled back, whatever was copied from the
    files before the missing one. *)
Theorem hazard_restore_incomplete_archive {DB : Type} `{Cursor DB}
    (conn : Connection DB) (tf : gmap string (list string)) :
  match tf !! "hazard_calculation/FILENAMES.txt" with
  | None => True
  | Some filenames =>
      Exists (fun line => tf !! ("hazard_calculation/" +:+ rstrip line) = None)
             filenames
  end ->
  exists e,
    hazard_restore conn tf =
    ({| committed := committed conn; working := committed conn;
        calls := calls conn ++ [Rollback] |}, Raise e).
Proof.
  intros Hmissing. unfold hazard_restore, restore_all.
  destruct (tf !! "hazard_calculation/FILENAMES.txt") as [filenames|].
  - destruct (restore_files_missing tf filenames (working conn) Hmissing)
      as (db' & e & ->).
    by exists e.
  - by exists KeyError.
Qed.

Lemma hazard_restore_incomplete_archive_witness :
  exists e,
    @hazard_restore _ Examples.cursor0 Examples.conn0
       {[ "hazard_calculation/FILENAMES.txt" := ["site.csv.gz"; "gmf.csv.gz"];
          "hazard_calculation/site.csv.gz" := [Examples.line "2" "b"] ]} =
    ({| committed := committed Examples.conn0; working := committed Examples.conn0;
        calls := calls Examples.conn0 ++ [Rollback] |}, Raise e).
Proof.
  apply (@hazard_restore_incomplete_archive _ Examples.cursor0 Examples.conn0
           {[ "hazard_calculation/FILENAMES.txt" := ["site.csv.gz"; "gmf.csv.gz"];
              "hazard_calculation/site.csv.gz" := [Examples.line "2" "b"] ]}).
  vm_compute. apply Exists_cons_tl, Exists_cons_hd. reflexivity.
Defined.

(** ** File names, table names and ids *)

Lemma string_app_nil_inv (s t : string) : s +:+ t = "" -> t = "".
Proof. by destruct s. Qed.

Lemma rstrip_app_keep (s t : string) :
  rstrip t <> "" -> rstrip (s +:+ t) = s +:+ rstrip t.
Proof.
  intros Ht. induction s as [|c s IH]; [done|].
  change (rstrip (String c (s +:+ t)) = String c (s +:+ rstrip t)).
  cbn [rstrip]. rewrite IH.
  destruct (s +:+ rstrip t) eqn:E; [|done].
  by apply string_app_nil_inv in E.
Qed.

Lemma string_length_app (s t : string) :
  String.length (s +:+ t) = (String.length s + String.length t)%nat.
Proof.
  induction s as [|c s IH]; [done|].
  change (S (String.length (s +:+ t)) = S (String.length s + String.length t)).
  by rewrite IH.
Qed.

Lemma substring_prefix (s t : string) : substring 0 (String.length s) (s +:+ t) = s.
Proof.
  induction s as [|c s IH].
  - by destruct t.
  - change (String c (substring 0 (String.length s) (s +:+ t)) = String c s).
    by rewrite IH.
Qed.

(** X25: for the line ["<table>.csv.gz"] of [FILENAMES.txt], with its end of
    line, the file name is the line without the end of line and the table
    name is [<table>], whatever the characters of the table name. *)
Theorem table_name_of_line (tname : string) :
  let line := tname +:+ ".csv.gz" +:+ String (Ascii.ascii_of_nat 10) "" in
  rstrip line = tname +:+ ".csv.gz" /\ strip_csv_gz (rstrip line) = tname.
Proof.
  cbv zeta.
  assert (rstrip (tname +:+ ".csv.gz" +:+ String (Ascii.ascii_of_nat 10) "")
          = tname +:+ ".csv.gz") as ->.
  { rewrite rstrip_app_keep; [done|]. by vm_compute. }
  split; [done|]. unfold strip_csv_gz.
  rewrite string_length_app. simpl String.length.
  replace (String.length tname + 7 - 7)%nat with (String.length tname) by lia.
  apply substring_prefix.
Qed.

(** X26: the id of a line is read from what precedes its first tab: for a
    line made of a field without tab, a tab and anything, the id is the
    number that the field reads as, and [None] when it reads as none. *)
Theorem line_id_first_field {DB : Type} `{Cursor DB} (field rest : string) :
  first_field field = field ->
  line_id (field +:+ String (Ascii.ascii_of_nat 9) rest) = int_of_string field.
Proof.
  intros Hfield. unfold line_id. f_equal.
  induction field as [|c field IH].
  - change (first_field (String (Ascii.ascii_of_nat 9) rest) = "").
    cbn [first_field]. by rewrite decide_True.
  - change (first_field (String c (field +:+ String (Ascii.ascii_of_nat 9) rest))
            = String c field).
    cbn [first_field] in *.
    destruct (decide (c = Ascii.ascii_of_nat 9)); [done|].
    injection Hfield as Hfield. by rewrite IH.
Qed.

Lemma line_id_first_field_witness :
  @line_id _ Examples.cursor0 ("2" +:+ String (Ascii.ascii_of_nat 9) "b") =
  @int_of_string _ Examples.cursor0 "2".
Proof.
  apply (@line_id_first_field _ Examples.cursor0 "2" "b").
  reflexivity.
Defined.

(** ** A task whose first output has an empty event loss table *)

Lemma keys_empty : keys ∅ = [].
Proof. unfold keys. by rewrite map_to_list_empty. Qed.

(** X27: when the event loss table of the first output is empty and one of
    its assets with a loss row is at a site to disaggregate, [do_event_based]
    saves nothing and raises [ValueError]: the list of rupture ids, the keys
    of that table, is empty. *)
Theorem do_event_based_empty_table_raises ruptures params first rest stats :
  output_event_loss_table (output first) = ∅ ->
  Exists (fun pair : Asset * list Qc => asset_site pair.1 ∈ sites_disagg params)
         (zip (assets (output first)) (loss_matrix (output first))) ->
  do_event_based ruptures params (first :: rest, stats) = ([], Raise ValueError).
Proof.
  intros Htable Hlisted. unfold do_event_based. cbn [save_outputs].
  destruct (sites_disagg params) as [|site sites] eqn:Esites.
  - apply Exists_exists in Hlisted as (pair & _ & Hin). by apply not_elem_of_nil in Hin.
  - rewrite Htable, keys_empty.
    rewrite disaggregate_no_rupture_ids_raises; [done|]. by rewrite Esites.
Qed.

Lemma do_event_based_empty_table_raises_witness :
  do_event_based Examples.ruptures0 Examples.params0
    ([ {| hid := 1;
          output := {| assets := [Examples.asset0]; loss_matrix := [[]];
                       output_event_loss_table := ∅; insured_curves := false |} |} ],
     None) = ([], Raise ValueError).
Proof.
  apply (do_event_based_empty_table_raises Examples.ruptures0 Examples.params0
           {| hid := 1;
              output := {| assets := [Examples.asset0]; loss_matrix := [[]];
                           output_event_loss_table := ∅; insured_curves := false |} |}
           [] None).
  - reflexivity.
  - apply Exists_cons_hd. by_compute.
Defined.
